(** * youtube_downloader.py: download orchestration, resolution listing, CLI

    A shallow embedding of [src/youtube_downloader.py].  The three
    module-level functions [baixar_video], [obter_resolucoes] and [main]
    are written as computations in a small state-and-exception monad.
    The state holds the filesystem and a trace of what the program did to
    the outside world (messages handed to the callback, downloads
    started); the collaborators the file imports (pytube's [YouTube]
    object and its streams, [os]) are an environment record whose answers
    may be a value or a raised exception. *)

From Stdlib Require Import ZArith QArith Qround Qabs Qpower Lia Lqa Sorted.
From Stdlib Require Import String Ascii List.
From stdpp Require Import base gmap strings list pretty.
Import ListNotations.

Local Open Scope string_scope.
Local Open Scope Z_scope.

(** ** Python strings and [os.path] (POSIX flavour) *)

Module OsPath.

(** [s.rfind(c)] for a one-character [c]: highest index, or -1. *)
Fixpoint rfind_from (c : ascii) (s : string) (i found : Z) : Z :=
  match s with
  | EmptyString => found
  | String a s' => rfind_from c s' (i + 1) (if Ascii.eqb a c then i else found)
  end.

Definition rfind (c : ascii) (s : string) : Z := rfind_from c s 0 (-1).

(** [s[:n]] and [s[n:]] for [0 <= n]. *)
Fixpoint str_take (n : nat) (s : string) : string :=
  match n, s with
  | S n', String a s' => String a (str_take n' s')
  | _, _ => EmptyString
  end.

Fixpoint str_drop (n : nat) (s : string) : string :=
  match n, s with
  | S n', String _ s' => str_drop n' s'
  | _, _ => s
  end.

(** The [while filenameIndex < dotIndex] loop of [genericpath._splitext]:
    [true] when a character other than the dot is met before [dotIndex],
    which is when the split is taken. *)
Fixpoint leading_dots_end (p : string) (filenameIndex : nat) (todo : nat) : bool :=
  match todo with
  | O => false
  | S todo' =>
      match String.get filenameIndex p with
      | Some c => if Ascii.eqb c "." then leading_dots_end p (S filenameIndex) todo' else true
      | None => true
      end
  end.

(** [os.path.splitext(p)] *)
Definition splitext (p : string) : string * string :=
  let sepIndex := rfind "/" p in
  let dotIndex := rfind "." p in
  if (sepIndex <? dotIndex)
     && leading_dots_end p (Z.to_nat (sepIndex + 1)) (Z.to_nat (dotIndex - (sepIndex + 1)))
  then (str_take (Z.to_nat dotIndex) p, str_drop (Z.to_nat dotIndex) p)
  else (p, EmptyString).

(** [os.path.basename(p)] *)
Definition basename (p : string) : string :=
  str_drop (Z.to_nat (rfind "/" p + 1)) p.

End OsPath.

(** ** Python floats

    [bytes_baixados / tamanho_total * 100] is an [int / int] true division
    followed by a float multiplication, and [{porcentagem:.1f}] prints the
    result with one decimal.  Each of the three steps is correctly rounded,
    ties to even: the first two to binary64, the last to tenths.  Values are
    kept as rationals; the model is the float arithmetic as long as the
    results stay in the finite range of binary64. *)

Module PyFloat.

(** Nearest integer, ties to the even one. *)
Definition round_half_even (x : Q) : Z :=
  let f := Qfloor x in
  match Qcompare (x - inject_Z f) (1 # 2) with
  | Lt => f
  | Gt => f + 1
  | Eq => if Z.even f then f else f + 1
  end.

(** [floor (log2 q)] for [0 < q]. *)
Definition ilog2 (q : Q) : Z :=
  let d := Z.log2 (Qnum q) - Z.log2 (Zpos (Qden q)) in
  if Qle_bool (2 ^ d) q then d else d - 1.

(** Exponent of the unit in the last place of the binary64 format at [q]:
    53 significant bits, and the subnormal spacing [2^-1074] at the bottom. *)
Definition ulp_exp (q : Q) : Z := Z.max (ilog2 (Qabs q) - 52) (-1074).

(** The nearest multiple of [2^k], ties to the even multiple. *)
Definition grid (k : Z) (x : Q) : Q :=
  (inject_Z (round_half_even (x / 2 ^ k)) * 2 ^ k)%Q.

(** Round to nearest binary64, ties to even. *)
Definition round_float (q : Q) : Q := grid (ulp_exp q) q.

(** [a / b] on Python ints, [b <> 0]. *)
Definition truediv (a b : Z) : Q := round_float (inject_Z a / inject_Z b).

(** [x * y] on floats. *)
Definition fmul (x y : Q) : Q := round_float (x * y).

(** The number of tenths [format(x, ".1f")] prints, in absolute value. *)
Definition tenths (x : Q) : Z := round_half_even (Qabs x * 10).

(** [format(x, ".1f")] *)
Definition format_1f (x : Q) : string :=
  let t := tenths x in
  (if Qlt_le_dec x 0 then "-" else EmptyString)
    +:+ pretty (t / 10) +:+ "." +:+ pretty (t mod 10).

End PyFloat.

(** ** Exceptions, outcomes, and the world the program acts on *)

(** Instances of [Exception]: the two pytube classes the program names in
    its [except] clauses, and any other one; each carries its [str(e)]. *)
Inductive exn : Type :=
| RegexMatchError (msg : string)
| VideoUnavailable (msg : string)
| OtherException (msg : string).

Definition str (e : exn) : string :=
  match e with
  | RegexMatchError m | VideoUnavailable m | OtherException m => m
  end.

Inductive Outcome (A : Type) : Type :=
| Return (a : A)
| Raised (e : exn).
Arguments Return {A} a.
Arguments Raised {A} e.

(** A pytube [Stream], as far as the program reads it. *)
Record Stream : Type := mkStream {
  itag : Z;
  resolution : option string;      (* [None] where pytube has no label *)
  is_progressive : bool;
  only_audio : bool;               (* audio track and no video track *)
  filesize : Z
}.

(** A pytube [YouTube] object: each attribute access either answers or raises. *)
Record YouTubeObj : Type := mkYouTube {
  yt_title : Outcome string;
  yt_length : Outcome Z;
  yt_views : Outcome Z;
  yt_streams : Outcome (list Stream)
}.

(** What one call of [stream.download(output_path=...)] does: the
    [bytes_remaining] values it hands to the registered progress hook, one per
    chunk, then the file it leaves (path and bytes) or the exception it raises.
    pytube opens the file first and writes each chunk before it calls the
    hook, so a download that is abandoned after [k] chunks, because the hook
    or the transfer raised, leaves [partial k] behind: the path and the bytes
    written so far, or nothing when the file could not be opened. *)
Record Transfer : Type := mkTransfer {
  chunks : list Z;
  landed : Outcome (string * string);
  partial : nat -> option (string * string)
}.

(** The collaborators. *)
Record Env : Type := mkEnv {
  YouTube : string -> Outcome YouTubeObj;           (* [YouTube(url)] *)
  getcwd : string;                                  (* [os.getcwd()] *)
  makedirs_error : string -> option exn;            (* why [os.makedirs] fails, if it does *)
  makedirs_made : string -> list string;            (* the missing parents it makes on the way *)
  rename_error : string -> string -> option exn;    (* why [os.rename] fails, if it does *)
  transfer : Stream -> string -> Transfer           (* [stream.download] *)
}.

Inductive Event : Type :=
| Report (msg : string)                      (* [callback(msg)] was called *)
| Download (s : Stream) (output_path : string)  (* [s.download(output_path)] was called *)
| GuiStarted.                                (* [iniciar_gui()] was called *)

Record State : Type := mkState {
  files : gmap string string;    (* path -> content *)
  dirs : gset string;
  trace : list Event
}.

(** The optional [callback] argument.  A callback sees the message and
    what it was told before, and either returns or raises. *)
Definition Callback : Type := list string -> string -> option exn.

Fixpoint reports (t : list Event) : list string :=
  match t with
  | [] => []
  | Report m :: t' => m :: reports t'
  | _ :: t' => reports t'
  end.

Fixpoint downloads (t : list Event) : list (Stream * string) :=
  match t with
  | [] => []
  | Download s p :: t' => (s, p) :: downloads t'
  | _ :: t' => downloads t'
  end.

Definition is_Some_bool {A} (x : option A) : bool :=
  match x with Some _ => true | None => false end.

(** ** The monad *)

Definition M (A : Type) : Type := State -> Outcome A * State.

Definition ret {A} (a : A) : M A := fun st => (Return a, st).

Definition raise {A} (e : exn) : M A := fun st => (Raised e, st).

Definition bind {A B} (m : M A) (f : A -> M B) : M B :=
  fun st =>
    match m st with
    | (Return a, st') => f a st'
    | (Raised e, st') => (Raised e, st')
    end.

Declare Scope prog_scope.
Delimit Scope prog_scope with prog.
Notation "x ← y ; z" := (bind y (fun x => z))
  (at level 20, y at level 100, z at level 200, only parsing) : prog_scope.
Notation "x ;; z" := (bind x (fun _ => z))
  (at level 100, z at level 200, only parsing, right associativity) : prog_scope.
Local Open Scope prog_scope.

(** [try: body  except Exception as e: handler(e)] *)
Definition try_except {A} (body : M A) (handler : exn -> M A) : M A :=
  fun st =>
    match body st with
    | (Return a, st') => (Return a, st')
    | (Raised e, st') => handler e st'
    end.

(** Evaluate an expression of the collaborator. *)
Definition eval {A} (o : Outcome A) : M A :=
  match o with
  | Return a => ret a
  | Raised e => raise e
  end.

Definition emit (ev : Event) : M unit :=
  fun st => (Return tt, mkState (files st) (dirs st) (trace st ++ [ev])).

(** [if callback: callback(msg)] *)
Definition notify (callback : option Callback) (msg : string) : M unit :=
  match callback with
  | None => ret tt
  | Some cb =>
      fun st =>
        let st' := mkState (files st) (dirs st) (trace st ++ [Report msg]) in
        match cb (reports (trace st)) msg with
        | None => (Return tt, st')
        | Some e => (Raised e, st')
        end
  end.

(** [for x in xs: f(x)] *)
Fixpoint for_each {A} (f : A -> M unit) (xs : list A) : M unit :=
  match xs with
  | [] => ret tt
  | x :: xs' => f x ;; for_each f xs'
  end.

(** ** [os] calls *)

Section Program.

Variable env : Env.

(** [os.makedirs(p, exist_ok=True)]: the missing parents are made first,
    outermost first, then [p]; when it raises, the parents made until then
    stay. *)
Definition makedirs (p : string) : M unit :=
  fun st =>
    let parents := list_to_set (makedirs_made env p) ∪ dirs st in
    match makedirs_error env p with
    | Some e => (Raised e, mkState (files st) parents (trace st))
    | None => (Return tt, mkState (files st) ({[p]} ∪ parents) (trace st))
    end.

(** [os.rename(src, dst)]: the content moves, nothing is rewritten. *)
Definition rename (src dst : string) : M unit :=
  fun st =>
    match rename_error env src dst with
    | Some e => (Raised e, st)
    | None =>
        match files st !! src with
        | None => (Raised (OtherException
                    ("[Errno 2] No such file or directory: '" +:+ src +:+ "' -> '" +:+ dst +:+ "'")), st)
        | Some data => (Return tt, mkState (<[dst := data]> (delete src (files st))) (dirs st) (trace st))
        end
    end.

(** ** pytube calls *)

(** [streams.filter(only_audio=True)], [streams.filter(progressive=True)],
    [streams.filter(progressive=True, resolution=r)] and [.first()]. *)
Definition filter_only_audio (ss : list Stream) : list Stream :=
  List.filter only_audio ss.

Definition filter_progressive (ss : list Stream) : list Stream :=
  List.filter is_progressive ss.

Definition has_resolution (r : string) (s : Stream) : bool :=
  match resolution s with
  | Some l => String.eqb l r
  | None => false
  end.

Definition filter_progressive_resolution (r : string) (ss : list Stream) : list Stream :=
  List.filter (fun s => is_progressive s && has_resolution r s) ss.

Definition first (ss : list Stream) : option Stream := List.head ss.

(** Modelled from the spec: the number a resolution label stands for.
    pytube orders labels by the number their decimal digits spell, ["720p"]
    as 720; the spec asks for a numeric comparison of the labels. *)
Definition digit_value (c : ascii) : option Z :=
  let n := Z.of_N (N_of_ascii c) in
  if (48 <=? n) && (n <=? 57) then Some (n - 48) else None.

Fixpoint digits_number (s : string) (acc : Z) : Z :=
  match s with
  | EmptyString => acc
  | String c s' =>
      match digit_value c with
      | Some d => digits_number s' (10 * acc + d)
      | None => digits_number s' acc
      end
  end.

Definition label_number (s : Stream) : Z :=
  match resolution s with
  | Some l => digits_number l 0
  | None => 0
  end.

Definition labelled (s : Stream) : bool :=
  match resolution s with Some _ => true | None => false end.

(** The better of the best stream so far and the next one; on equal
    numbers the later stream wins. *)
Definition higher (best : option Stream) (s : Stream) : option Stream :=
  match best with
  | None => Some s
  | Some b => if label_number b <=? label_number s then Some s else Some b
  end.

(** Modelled from the spec: [StreamQuery.get_highest_resolution] is
    pytube's and not part of this repository.  Per the spec it answers the
    progressive stream whose resolution label is numerically highest, and
    nothing when there is no progressive stream; streams without a label are
    not candidates. *)
Definition get_highest_resolution (ss : list Stream) : option Stream :=
  fold_left higher (List.filter labelled (filter_progressive ss)) None.

(** The file a download abandoned after [k] chunks leaves. *)
Definition leave (t : Transfer) (k : nat) : M unit :=
  fun st =>
    match partial t k with
    | Some (path, data) =>
        (Return tt, mkState (<[path := data]> (files st)) (dirs st) (trace st))
    | None => (Return tt, st)
    end.

(** The chunks reach the hook one by one, [k] of them having been written
    before; a hook that raises ends the download. *)
Fixpoint feed (t : Transfer) (hook : Z -> M unit) (k : nat) (rs : list Z) : M unit :=
  match rs with
  | [] => ret tt
  | r :: rs' =>
      try_except (hook r) (fun e => leave t (S k) ;; raise e) ;;
      feed t hook (S k) rs'
  end.

(** [stream.download(output_path=pasta)] with [hook] registered through
    [yt.register_on_progress_callback].  Nothing in the program looks at the
    file while it grows, so it is written once: whole when the download
    lands, and as far as it got when the download is abandoned. *)
Definition download (s : Stream) (pasta : string) (hook : Stream -> Z -> M unit) : M string :=
  let t := transfer env s pasta in
  emit (Download s pasta) ;;
  feed t (hook s) 0 (chunks t) ;;
  match landed t with
  | Raised e => leave t (length (chunks t)) ;; raise e
  | Return (path, data) =>
      fun st => (Return path, mkState (<[path := data]> (files st)) (dirs st) (trace st))
  end.

(** [x.download(...)] where [x] may be [None]. *)
Definition download_on (x : option Stream) (pasta : string) (hook : Stream -> Z -> M unit) : M string :=
  match x with
  | Some s => download s pasta hook
  | None => raise (OtherException "'NoneType' object has no attribute 'download'")
  end.

(** ** Pieces of Python the program relies on *)

Definition nl : string := String "010"%char EmptyString.

(** [str(x)] inside an f-string, for a value that is a string or [None]. *)
Definition py_str (x : option string) : string :=
  match x with
  | Some s => s
  | None => "None"
  end.

(** Truth value of an optional string: [None] and [EmptyString] are false. *)
Definition truthy (x : option string) : bool :=
  match x with
  | Some s => negb (String.eqb s EmptyString)
  | None => false
  end.

Fixpoint first_none (i : Z) (xs : list (option string)) : option Z :=
  match xs with
  | [] => None
  | None :: _ => Some i
  | Some _ :: xs' => first_none (i + 1) xs'
  end.

(** [sep.join(xs)], a [TypeError] when an item is [None]. *)
Definition join (sep : string) (xs : list (option string)) : Outcome string :=
  match first_none 0 xs with
  | Some i =>
      Raised (OtherException
        ("sequence item " +:+ pretty i +:+ ": expected str instance, NoneType found"))
  | None => Return (String.concat sep (omap id xs))
  end.

(** ** [baixar_video] *)

(** The nested [on_progress(stream, chunk, bytes_remaining)]; the audio
    branch and the video branch define the same function. *)
Definition on_progress (callback : option Callback) (stream : Stream) (bytes_remaining : Z)
  : M unit :=
  let tamanho_total := filesize stream in
  let bytes_baixados := tamanho_total - bytes_remaining in
  if tamanho_total =? 0 then raise (OtherException "division by zero")
  else
    let porcentagem := PyFloat.fmul (PyFloat.truediv bytes_baixados tamanho_total) 100 in
    notify callback ("Baixado: " +:+ PyFloat.format_1f porcentagem +:+ "%").

(** Lines 33-35, the text of [info]: the three attributes are read in
    this order and the first that raises ends the evaluation. *)
Definition video_info (yt : YouTubeObj) : Outcome string :=
  match yt_title yt with
  | Raised e => Raised e
  | Return title =>
      match yt_length yt with
      | Raised e => Raised e
      | Return length =>
          match yt_views yt with
          | Raised e => Raised e
          | Return views =>
              Return ("Título: " +:+ title +:+ nl
                      +:+ "Duração: " +:+ pretty length +:+ " segundos" +:+ nl
                      +:+ "Visualizações: " +:+ pretty views +:+ nl)
          end
      end
  end.

Definition msg_conectando : string := "Conectando ao YouTube...".
Definition msg_url_invalida : string := "Erro: URL inválida. Verifique se a URL está correta.".
Definition msg_indisponivel : string := "Erro: Este vídeo não está disponível ou é privado.".
Definition msg_inesperado (e : exn) : string := "Erro inesperado: " +:+ str e.
Definition msg_fallback (resolucao : string) : string :=
  "Resolução " +:+ resolucao +:+ " não disponível. Usando a melhor resolução disponível.".

(** The body of the [try] of [baixar_video], lines 27-105. *)
Definition baixar_video_try (url : string) (pasta_destino resolucao : option string)
    (apenas_audio : bool) (callback : option Callback) : M (option string) :=
  notify callback msg_conectando ;;
  yt ← eval (YouTube env url) ;
  info ← eval (video_info yt) ;
  notify callback info ;;
  let pasta_destino :=
    match pasta_destino with
    | None => getcwd env
    | Some p => p
    end in
  makedirs pasta_destino ;;
  if apenas_audio then
    notify callback "Baixando apenas áudio..." ;;
    streams ← eval (yt_streams yt) ;
    let audio := first (filter_only_audio streams) in
    arquivo_baixado ← download_on audio pasta_destino (on_progress callback) ;
    let base := fst (OsPath.splitext arquivo_baixado) in
    let novo_arquivo := base +:+ ".mp3" in
    rename arquivo_baixado novo_arquivo ;;
    notify callback ("Áudio baixado e salvo como " +:+ OsPath.basename novo_arquivo) ;;
    ret (Some novo_arquivo)
  else
    streams ← eval (yt_streams yt) ;
    let resolucoes_disponiveis := map resolution (filter_progressive streams) in
    match callback with
    | Some _ =>
        joined ← eval (join ", " resolucoes_disponiveis) ;
        notify callback ("Resoluções disponíveis: " +:+ joined)
    | None => ret tt
    end ;;
    stream ←
      (if truthy resolucao then
         match first (filter_progressive_resolution (py_str resolucao) streams) with
         | Some stream => ret (Some stream)
         | None =>
             notify callback (msg_fallback (py_str resolucao)) ;;
             ret (get_highest_resolution streams)
         end
       else ret (get_highest_resolution streams)) ;
    match callback with
    | Some _ =>
        match stream with
        | Some s =>
            notify callback ("Baixando vídeo com resolução " +:+ py_str (resolution s) +:+ "...")
        | None => raise (OtherException "'NoneType' object has no attribute 'resolution'")
        end
    | None => ret tt
    end ;;
    arquivo_baixado ← download_on stream pasta_destino (on_progress callback) ;
    notify callback ("Vídeo baixado e salvo como " +:+ OsPath.basename arquivo_baixado) ;;
    ret (Some arquivo_baixado).

(** The three [except] clauses, lines 107-115; control then falls off the
    end of the function, which returns [None]. *)
Definition baixar_video_except (callback : option Callback) (e : exn) : M (option string) :=
  match e with
  | RegexMatchError _ => notify callback msg_url_invalida
  | VideoUnavailable _ => notify callback msg_indisponivel
  | OtherException _ => notify callback (msg_inesperado e)
  end ;;
  ret None.

Definition baixar_video (url : string) (pasta_destino resolucao : option string)
    (apenas_audio : bool) (callback : option Callback) : M (option string) :=
  try_except
    (baixar_video_try url pasta_destino resolucao apenas_audio callback)
    (baixar_video_except callback).

(** ** [obter_resolucoes] *)

Definition obter_resolucoes (url : string) (callback : option Callback)
  : M (list (option string)) :=
  try_except
    (notify callback "Obtendo informações do vídeo..." ;;
     yt ← eval (YouTube env url) ;
     streams ← eval (yt_streams yt) ;
     let resolucoes := map resolution (filter_progressive streams) in
     match callback with
     | Some _ =>
         title ← eval (yt_title yt) ;
         notify callback ("Título do vídeo: " +:+ title)
     | None => ret tt
     end ;;
     ret resolucoes)
    (fun e =>
       notify callback ("Erro ao obter resoluções: " +:+ str e) ;;
       ret []).

(** ** [main] *)

(** The three locals the argument loop of [main] assigns. *)
Record Args : Type := mkArgs {
  pasta_destino : option string;
  resolucao : option string;
  apenas_audio : bool
}.

(** One turn of [for i in range(2, len(sys.argv))]. *)
Definition main_loop_body (argv : list string) (a : Args) (i : nat) : Args :=
  let arg := nth i argv EmptyString in
  if String.eqb arg "--audio" then
    mkArgs (pasta_destino a) (resolucao a) true
  else if String.eqb arg "--resolucao" && (i + 1 <? List.length argv)%nat then
    mkArgs (pasta_destino a) (Some (nth (i + 1) argv EmptyString)) (apenas_audio a)
  else if negb (String.prefix "--" arg) && negb (is_Some_bool (pasta_destino a)) then
    mkArgs (Some arg) (resolucao a) (apenas_audio a)
  else a.

Definition main_args (argv : list string) : Args :=
  fold_left (main_loop_body argv) (seq 2 (List.length argv - 2)) (mkArgs None None false).

(** [len(sys.argv) > 1 and sys.argv[1] != "--gui"] *)
Definition cli_mode (argv : list string) : bool :=
  (1 <? List.length argv)%nat && negb (String.eqb (nth 1 argv EmptyString) "--gui").

(** [iniciar_gui()]: the Tk main loop is not part of this model. *)
Definition iniciar_gui : M unit := emit GuiStarted.

Definition main (argv : list string) : M unit :=
  if cli_mode argv then
    let url := nth 1 argv EmptyString in
    let a := main_args argv in
    baixar_video url (pasta_destino a) (resolucao a) (apenas_audio a) None ;;
    ret tt
  else iniciar_gui.

End Program.

(** ** Vocabulary of the statements *)

(** The callback, when there is one, returns normally whatever it is told. *)
Definition quiet (callback : option Callback) : Prop :=
  forall cb, callback = Some cb -> forall told msg, cb told msg = None.

(** The state after [if callback: callback(msg)] when the callback returns. *)
Definition deliver (callback : option Callback) (msg : string) (st : State) : State :=
  match callback with
  | Some _ => mkState (files st) (dirs st) (trace st ++ [Report msg])
  | None => st
  end.

(** The messages of the three [except] clauses of [baixar_video]. *)
Definition error_report (e : exn) : string :=
  match e with
  | RegexMatchError _ => msg_url_invalida
  | VideoUnavailable _ => msg_indisponivel
  | OtherException _ => msg_inesperado e
  end.

Definition is_error_report (m : string) : Prop := exists e, m = error_report e.

(** Between [st] and [st'] things happened, the last of which was the
    delivery of an error message. *)
Definition ends_with_error_report (st st' : State) : Prop :=
  exists evs m, trace st' = (trace st ++ evs ++ [Report m])%list /\ is_error_report m.

(** [st'] continues the trace of [st]. *)
Definition extends (st st' : State) : Prop :=
  exists evs, trace st' = (trace st ++ evs)%list.

(** Nothing was handed to a callback between [st] and [st']. *)
Definition same_reports (st st' : State) : Prop :=
  reports (trace st') = reports (trace st).

(** A computation whose every run relates the state it starts from to the
    state it ends in. *)
Definition keeps {A} (R : State -> State -> Prop) (m : M A) : Prop :=
  forall st, R st (snd (m st)).

(** A computation that, when it returns, returns a value in [P]. *)
Definition yields {A} (P : A -> Prop) (m : M A) : Prop :=
  forall st a st', m st = (Return a, st') -> P a.

(** ** A sample world

    One video with two progressive streams, one video-only stream and two
    audio-only streams, listed in an order that is not sorted; every
    download reports three chunks and leaves [Clip.mp4] in the folder. *)

Module Sample.

Definition s360 : Stream := mkStream 18 (Some "360p") true false 1000.
Definition s720 : Stream := mkStream 22 (Some "720p") true false 4000.
Definition s1080 : Stream := mkStream 137 (Some "1080p") false false 9000.
Definition a128 : Stream := mkStream 140 None false true 300.
Definition a160 : Stream := mkStream 251 None false true 400.

Definition all_streams : list Stream := [s1080; s720; a128; s360; a160].

Definition clip : YouTubeObj :=
  mkYouTube (Return "Clip") (Return 212) (Return 1500) (Return all_streams).

(** The same video when the resolver lists no audio-only stream. *)
Definition clip_no_audio : YouTubeObj :=
  mkYouTube (Return "Clip") (Return 212) (Return 1500) (Return [s1080; s720; s360]).

Definition three_chunks (s : Stream) (pasta name : string) : Transfer :=
  mkTransfer [filesize s / 2; filesize s / 4; 0] (Return (pasta +:+ "/" +:+ name, "payload"))
             (fun k => Some (pasta +:+ "/" +:+ name, String.substring 0 (2 * k)%nat "payload")).

(** ["ok"] is the video, ["mute"] the one without audio streams,
    ["private"] is refused by YouTube and anything else is not a video URL. *)
Definition connect (url : string) : Outcome YouTubeObj :=
  if String.eqb url "ok" then Return clip
  else if String.eqb url "mute" then Return clip_no_audio
  else if String.eqb url "private" then Raised (VideoUnavailable "abc is a private video")
  else Raised (RegexMatchError "regex_search: could not find match").

Definition env : Env :=
  mkEnv connect "/home/user" (fun _ => None) (fun _ => []) (fun _ _ => None)
        (fun s pasta => three_chunks s pasta "Clip.mp4").

(** A world where the audio track already lands as [Clip.mp3]. *)
Definition env_mp3 : Env :=
  mkEnv connect "/home/user" (fun _ => None) (fun _ => []) (fun _ _ => None)
        (fun s pasta => three_chunks s pasta "Clip.mp3").

(** A callback that only listens. *)
Definition listener : Callback := fun _ _ => None.

Definition start : State := mkState ∅ ∅ [].

End Sample.

(** ** Sentences of the specification that fail as worded *)

(** The three collaborator reads of lines 30-35 of [baixar_video] end in a
    [VideoUnavailable]. *)
Definition unavailable_at_resolution (env : Env) (url : string) : Prop :=
  (exists m, YouTube env url = Raised (VideoUnavailable m)) \/
  (exists yt m, YouTube env url = Return yt /\ video_info yt = Raised (VideoUnavailable m)).

(** What the collaborator reads of [obter_resolucoes] amount to: the
    streams and the title, the title being read only for a callback. *)
Definition listing (env : Env) (url : string) (callback : option Callback)
  : Outcome (list Stream * string) :=
  match YouTube env url with
  | Raised e => Raised e
  | Return yt =>
      match yt_streams yt with
      | Raised e => Raised e
      | Return streams =>
          match callback with
          | None => Return (streams, EmptyString)
          | Some _ =>
              match yt_title yt with
              | Raised e => Raised e
              | Return title => Return (streams, title)
              end
          end
      end
  end.

Definition msg_erro_resolucoes (e : exn) : string := "Erro ao obter resoluções: " +:+ str e.

(** C1 as worded: for every callback argument, no exception escapes and a
    return without a file path is preceded by the delivery of an error
    message. *)
Definition C1_as_stated : Prop :=
  forall env url pasta resolucao audio (callback : option Callback) st,
    exists path st',
      baixar_video env url pasta resolucao audio callback st = (Return path, st') /\
      (path = None -> ends_with_error_report st st').

(** What the trace gains when [msgs] are said one after the other: they
    reach the callback when there is one. *)
Definition heard (callback : option Callback) (msgs : list string) : list Event :=
  match callback with
  | Some _ => map Report msgs
  | None => []
  end.

(** A progressive stream that carries the label [r]. *)
Definition matches (r : string) (s : Stream) : Prop :=
  is_progressive s = true /\ resolution s = Some r.

Definition msg_sem_download : string :=
  "Erro inesperado: 'NoneType' object has no attribute 'download'".

(** C7 as worded: exactly one message reaches the reporter. *)
Definition C7_as_stated : Prop :=
  forall env url pasta resolucao audio (cb : Callback) st,
    (forall told msg, cb told msg = None) ->
    unavailable_at_resolution env url ->
    exists st',
      baixar_video env url pasta resolucao audio (Some cb) st = (Return None, st') /\
      reports (trace st') = (reports (trace st) ++ [msg_indisponivel])%list.

(** C10 as worded: for every callback argument, a raising resolver ends in
    a delivered error message and the empty list. *)
Definition C10_as_stated : Prop :=
  forall env url (callback : option Callback) st,
    exists labels st',
      obter_resolucoes env url callback st = (Return labels, st') /\
      (forall e, listing env url callback = Raised e ->
                 labels = [] /\
                 exists evs, trace st' = (trace st ++ evs ++ [Report (msg_erro_resolucoes e)])%list) /\
      (forall streams title, listing env url callback = Return (streams, title) ->
                 labels = map resolution (filter_progressive streams)).

(** The value of the local [porcentagem] of [on_progress], and the message
    made from it. *)
Definition porcentagem (tamanho_total bytes_remaining : Z) : Q :=
  PyFloat.fmul (PyFloat.truediv (tamanho_total - bytes_remaining) tamanho_total) 100.

Definition msg_baixado (tamanho_total bytes_remaining : Z) : string :=
  "Baixado: " +:+ PyFloat.format_1f (porcentagem tamanho_total bytes_remaining) +:+ "%".

Definition msg_resolucoes (streams : list Stream) : string :=
  "Resoluções disponíveis: "
    +:+ String.concat ", " (omap id (map resolution (filter_progressive streams))).

Definition msg_baixando (s : Stream) : string :=
  "Baixando vídeo com resolução " +:+ py_str (resolution s) +:+ "...".

(** The folder [baixar_video] works in, lines 41-42. *)
Definition destination (env : Env) (pasta : option string) : string :=
  match pasta with
  | None => getcwd env
  | Some p => p
  end.

(** Lines 90-105 with the handlers around them: what [baixar_video] does
    once the video stream is chosen. *)
Definition video_tail (env : Env) (callback : option Callback) (stream : option Stream)
    (pasta : string) : M (option string) :=
  try_except
    (match callback with
     | Some _ =>
         match stream with
         | Some s =>
             notify callback ("Baixando vídeo com resolução " +:+ py_str (resolution s) +:+ "...")
         | None => raise (OtherException "'NoneType' object has no attribute 'resolution'")
         end
     | None => ret tt
     end ;;
     arquivo_baixado ← download_on env stream pasta (on_progress callback) ;
     notify callback ("Vídeo baixado e salvo como " +:+ OsPath.basename arquivo_baixado) ;;
     ret (Some arquivo_baixado))
    (baixar_video_except callback).

(** C3 as worded: for every callback argument, when no progressive stream
    carries the label asked for, a fallback notice is reported before the
    download of the highest stream starts. *)
Definition C3_as_stated : Prop :=
  forall env url pasta r (callback : option Callback) st yt info streams best,
    quiet callback ->
    r <> EmptyString ->
    YouTube env url = Return yt ->
    video_info yt = Return info ->
    makedirs_error env (destination env pasta) = None ->
    yt_streams yt = Return streams ->
    Forall (fun s => is_progressive s = true -> labelled s = true) streams ->
    Forall (fun x => ~ matches r x) streams ->
    get_highest_resolution streams = Some best ->
    exists evs1 evs2,
      trace (snd (baixar_video env url pasta (Some r) false callback st))
      = (trace st ++ evs1 ++ Report (msg_fallback r) :: evs2)%list /\
      In (Download best (destination env pasta)) evs2.

(** C6 as worded: for every callback argument, the request ends with an
    error message delivered. *)
Definition C6_as_stated : Prop :=
  forall env url pasta resolucao (callback : option Callback) st yt streams,
    quiet callback ->
    YouTube env url = Return yt ->
    yt_streams yt = Return streams ->
    Forall (fun s => only_audio s = false) streams ->
    exists st',
      baixar_video env url pasta resolucao true callback st = (Return None, st') /\
      ends_with_error_report st st'.

(** C4 as worded: after a successful audio-only download nothing is left
    at the path the download wrote. *)
Definition C4_as_stated : Prop :=
  forall env url pasta resolucao (callback : option Callback) st yt info streams audio path data,
    let dest := destination env pasta in
    let novo := fst (OsPath.splitext path) +:+ ".mp3" in
    quiet callback ->
    YouTube env url = Return yt ->
    video_info yt = Return info ->
    makedirs_error env dest = None ->
    yt_streams yt = Return streams ->
    first (filter_only_audio streams) = Some audio ->
    filesize audio <> 0 ->
    landed (transfer env audio dest) = Return (path, data) ->
    rename_error env path novo = None ->
    exists st',
      baixar_video env url pasta resolucao true callback st = (Return (Some novo), st') /\
      downloads (trace st') = (downloads (trace st) ++ [(audio, dest)])%list /\
      files st' !! novo = Some data /\
      files st' !! path = None.

(** C8 as worded: the CLI hands [baixar_video] a reporter. *)
Definition C8_as_stated : Prop :=
  forall env argv st,
    cli_mode argv = true ->
    exists cb : Callback,
      main env argv st
      = (baixar_video env (nth 1 argv EmptyString)
                      (pasta_destino (main_args argv))
                      (resolucao (main_args argv))
                      (apenas_audio (main_args argv))
                      (Some cb) ;;
         ret tt) st.

(** Each value lower than the one before. *)
Fixpoint strictly_decreasing (rs : list Z) : bool :=
  match rs with
  | a :: (b :: _) as rest => (b <? a) && strictly_decreasing rest
  | _ => true
  end.

(** ** Worlds where something goes wrong *)

Module Faults.

Definition denied : exn := OtherException "[Errno 13] Permission denied: 'out'".

Definition read_only : exn := OtherException "[Errno 30] Read-only file system: 'out/mnt/clips'".

(** The folder cannot be made: [os.makedirs] makes ["out"], then fails on
    the next parent. *)
Definition env_no_folder : Env :=
  mkEnv Sample.connect "/home/user" (fun _ => Some read_only) (fun _ => ["out"])
        (fun _ _ => None)
        (fun s pasta => Sample.three_chunks s pasta "Clip.mp4").

(** The folder is made together with its parent. *)
Definition env_deep : Env :=
  mkEnv Sample.connect "/home/user" (fun _ => None) (fun _ => ["out"]) (fun _ _ => None)
        (fun s pasta => Sample.three_chunks s pasta "Clip.mp4").

(** No file can be renamed. *)
Definition env_no_rename : Env :=
  mkEnv Sample.connect "/home/user" (fun _ => None) (fun _ => []) (fun _ _ => Some denied)
        (fun s pasta => Sample.three_chunks s pasta "Clip.mp4").

(** A video whose only audio stream announces a size of zero. *)
Definition a0 : Stream := mkStream 140 None false true 0.

Definition clip_empty : YouTubeObj :=
  mkYouTube (Return "Clip") (Return 212) (Return 1500) (Return [Sample.s720; a0]).

Definition env_empty : Env :=
  mkEnv (fun _ => Return clip_empty) "/home/user" (fun _ => None) (fun _ => [])
        (fun _ _ => None)
        (fun s pasta => Sample.three_chunks s pasta "Clip.mp4").

Definition clip_info : string :=
  "Título: Clip" +:+ nl +:+ "Duração: 212 segundos" +:+ nl +:+ "Visualizações: 1500" +:+ nl.

End Faults.

(** ** Assertions on runs *)

(** From a state in [P] the computation ends in [Q] when it returns and in
    [E] when it raises. *)
Definition hoare {A} (P : State -> Prop) (m : M A)
    (Q : A -> State -> Prop) (E : State -> Prop) : Prop :=
  forall st, P st ->
    match m st with
    | (Return a, st') => Q a st'
    | (Raised _, st') => E st'
    end.

(** An assertion that a message handed to the callback does not disturb. *)
Definition report_stable (P : State -> Prop) : Prop :=
  forall st msg, P st -> P (mkState (files st) (dirs st) (trace st ++ [Report msg])).

(** In one of four assertions. *)
Definition somewhere (A B C D : State -> Prop) (st : State) : Prop :=
  A st \/ B st \/ C st \/ D st.

(** What [baixar_video] has done to the world between [st] and [st'], for
    the destination folder [dest]: nothing; or a call of [os.makedirs] that
    failed, leaving the parents it had made; or the folder, with the parents
    made for it; or the folder and one download into it. *)
Inductive Footprint (env : Env) (dest : string) (st st' : State) : Prop :=
| nothing_done :
    files st' = files st -> dirs st' = dirs st ->
    downloads (trace st') = downloads (trace st) ->
    Footprint env dest st st'
| folder_refused :
    files st' = files st ->
    dirs st' = list_to_set (makedirs_made env dest) ∪ dirs st ->
    downloads (trace st') = downloads (trace st) ->
    Footprint env dest st st'
| folder_made :
    files st' = files st ->
    dirs st' = {[dest]} ∪ (list_to_set (makedirs_made env dest) ∪ dirs st) ->
    downloads (trace st') = downloads (trace st) ->
    Footprint env dest st st'
| download_started (s : Stream) :
    dirs st' = {[dest]} ∪ (list_to_set (makedirs_made env dest) ∪ dirs st) ->
    downloads (trace st') = (downloads (trace st) ++ [(s, dest)])%list ->
    Footprint env dest st st'.

(** ** Vocabulary for the command line *)

(** The tokens that come right after an occurrence of [flag]. *)
Fixpoint followers (flag : string) (args : list string) : list string :=
  match args with
  | a :: (b :: _) as rest =>
      if String.eqb a flag then b :: followers flag rest else followers flag rest
  | _ => []
  end.

(** A token that does not start with two dashes. *)
Definition plain (arg : string) : bool := negb (String.prefix "--" arg).

(** ** [YouTubeDownloaderGUI]

    The window is the record of what its methods read and set: the text of
    the entries, the Tk variables, the state of the two buttons and of the
    combobox, whether the progress bar runs, the message boxes shown and the
    work handed to others (threads started, calls scheduled with
    [root.after]).  The log area is not a field: [add_log] is the callback the
    window passes to [baixar_video] and [obter_resolucoes], so what it has
    inserted is what the trace reports, one message per line.  Calls into Tk
    are taken to return. *)

Inductive WidgetState : Type :=
| tk_normal        (* [tk.NORMAL] *)
| tk_disabled      (* [tk.DISABLED], ["disabled"] *)
| tk_readonly.     (* ["readonly"] *)

Inductive Dialog : Type :=
| showerror (title message : string)
| showinfo (title message : string).

(** Work that runs after the method that asked for it has returned. *)
Inductive Task : Type :=
| thread_verificar (url : string)
| thread_download (url pasta : string) (res : option string) (audio : bool)
| after_atualizar (resolucoes : list (option string))
| after_finalizar.

Record Window : Type := mkWindow {
  url_entry : string;
  verificar_btn : WidgetState;
  apenas_audio_var : bool;
  resolucao_var : string;
  resolucao_combo_values : list (option string);
  resolucao_combo_state : WidgetState;
  destino_var : string;
  download_btn : WidgetState;
  progresso_bar : bool;            (* started and not stopped *)
  dialogs : list Dialog;
  tasks : list Task
}.

Definition melhor : string := "Melhor disponível".

(** [__init__], lines 140-244. *)
Definition init (cwd : string) : Window :=
  mkWindow EmptyString tk_normal false melhor
           [Some melhor; Some "720p"; Some "480p"; Some "360p"] tk_readonly
           cwd tk_normal false [] [].

(** Both buttons to [b], the bar started or stopped. *)
Definition set_busy (b : WidgetState) (running : bool) (w : Window) : Window :=
  mkWindow (url_entry w) b (apenas_audio_var w) (resolucao_var w)
           (resolucao_combo_values w) (resolucao_combo_state w) (destino_var w)
           b running (dialogs w) (tasks w).

Definition show (d : Dialog) (w : Window) : Window :=
  mkWindow (url_entry w) (verificar_btn w) (apenas_audio_var w) (resolucao_var w)
           (resolucao_combo_values w) (resolucao_combo_state w) (destino_var w)
           (download_btn w) (progresso_bar w) (dialogs w ++ [d]) (tasks w).

Definition hand_over (t : Task) (w : Window) : Window :=
  mkWindow (url_entry w) (verificar_btn w) (apenas_audio_var w) (resolucao_var w)
           (resolucao_combo_values w) (resolucao_combo_state w) (destino_var w)
           (download_btn w) (progresso_bar w) (dialogs w) (tasks w ++ [t]).

Definition set_tasks (ts : list Task) (w : Window) : Window :=
  mkWindow (url_entry w) (verificar_btn w) (apenas_audio_var w) (resolucao_var w)
           (resolucao_combo_values w) (resolucao_combo_state w) (destino_var w)
           (download_btn w) (progresso_bar w) (dialogs w) ts.

Definition set_combo_values (vs : list (option string)) (w : Window) : Window :=
  mkWindow (url_entry w) (verificar_btn w) (apenas_audio_var w) (resolucao_var w)
           vs (resolucao_combo_state w) (destino_var w)
           (download_btn w) (progresso_bar w) (dialogs w) (tasks w).

Definition set_combo_state (s : WidgetState) (w : Window) : Window :=
  mkWindow (url_entry w) (verificar_btn w) (apenas_audio_var w) (resolucao_var w)
           (resolucao_combo_values w) s (destino_var w)
           (download_btn w) (progresso_bar w) (dialogs w) (tasks w).

Definition set_destino (p : string) (w : Window) : Window :=
  mkWindow (url_entry w) (verificar_btn w) (apenas_audio_var w) (resolucao_var w)
           (resolucao_combo_values w) (resolucao_combo_state w) p
           (download_btn w) (progresso_bar w) (dialogs w) (tasks w).

Definition set_url (u : string) (w : Window) : Window :=
  mkWindow u (verificar_btn w) (apenas_audio_var w) (resolucao_var w)
           (resolucao_combo_values w) (resolucao_combo_state w) (destino_var w)
           (download_btn w) (progresso_bar w) (dialogs w) (tasks w).

Definition set_audio (b : bool) (w : Window) : Window :=
  mkWindow (url_entry w) (verificar_btn w) b (resolucao_var w)
           (resolucao_combo_values w) (resolucao_combo_state w) (destino_var w)
           (download_btn w) (progresso_bar w) (dialogs w) (tasks w).

Definition set_resolucao (r : string) (w : Window) : Window :=
  mkWindow (url_entry w) (verificar_btn w) (apenas_audio_var w) r
           (resolucao_combo_values w) (resolucao_combo_state w) (destino_var w)
           (download_btn w) (progresso_bar w) (dialogs w) (tasks w).

(** The callback [self.add_log] is for the functions it is passed to. *)
Definition log_widget : Callback := fun _ _ => None.

(** [add_log(mensagem)] *)
Definition add_log (mensagem : string) : M unit := notify (Some log_widget) mensagem.

(** [os.path.isdir(p)] *)
Definition isdir (p : string) : M bool :=
  fun st => (Return (bool_decide (p ∈ dirs st)), st).

Definition erro_url : Dialog := showerror "Erro" "Por favor, insira uma URL válida".
Definition erro_pasta : Dialog := showerror "Erro" "Pasta de destino inválida".
Definition sucesso : Dialog := showinfo "Sucesso" "Download concluído com sucesso!".

Section Gui.

Variable env : Env.

(** [str.strip], Python's. *)
Variable strip : string -> string.

(** [toggle_audio_mode] *)
Definition toggle_audio_mode (w : Window) : Window :=
  if apenas_audio_var w then set_combo_state tk_disabled w
  else set_combo_state tk_readonly w.

(** [browse_folder], with what [filedialog.askdirectory()] answers. *)
Definition browse_folder (pasta : string) (w : Window) : Window :=
  if String.eqb pasta EmptyString then w else set_destino pasta w.

(** [verificar_video] *)
Definition verificar_video (w : Window) : M Window :=
  let url := strip (url_entry w) in
  if String.eqb url EmptyString then ret (show erro_url w)
  else
    let w := set_busy tk_disabled true w in
    add_log "Verificando vídeo..." ;;
    ret (hand_over (thread_verificar url) w).

(** [_verificar_thread] *)
Definition _verificar_thread (url : string) (w : Window) : M Window :=
  resolucoes ← obter_resolucoes env url (Some log_widget) ;
  ret (hand_over (after_atualizar resolucoes) w).

(** [_atualizar_apos_verificacao] *)
Definition _atualizar_apos_verificacao (resolucoes : list (option string)) (w : Window)
  : M Window :=
  let w := set_busy tk_normal false w in
  match resolucoes with
  | [] => ret w
  | _ :: _ =>
      let w := set_combo_values (Some melhor :: resolucoes) w in
      add_log "Vídeo verificado com sucesso!" ;;
      ret w
  end.

(** [iniciar_download] *)
Definition iniciar_download (w : Window) : M Window :=
  let url := strip (url_entry w) in
  if String.eqb url EmptyString then ret (show erro_url w)
  else
    let pasta_destino := destino_var w in
    is_dir ← isdir pasta_destino ;
    if String.eqb pasta_destino EmptyString || negb is_dir then ret (show erro_pasta w)
    else
      let resolucao :=
        if negb (String.eqb (resolucao_var w) melhor) && negb (apenas_audio_var w)
        then Some (resolucao_var w)
        else None in
      let w := set_busy tk_disabled true w in
      add_log "Iniciando download..." ;;
      ret (hand_over (thread_download url pasta_destino resolucao (apenas_audio_var w)) w).

(** [_download_thread] *)
Definition _download_thread (url pasta_destino : string) (resolucao : option string)
    (apenas_audio : bool) (w : Window) : M Window :=
  baixar_video env url (Some pasta_destino) resolucao apenas_audio (Some log_widget) ;;
  ret (hand_over after_finalizar w).

(** [_finalizar_download] *)
Definition _finalizar_download (w : Window) : M Window :=
  let w := set_busy tk_normal false w in
  add_log "Download concluído!" ;;
  ret (show sucesso w).

(** *** The window at work

    What can happen to the window: the user presses a button, which Tk
    ignores while the button is disabled; ticks the audio box, which flips
    the variable and calls [toggle_audio_mode]; types in an entry; picks a
    folder; picks a resolution; or the oldest piece of work handed over runs
    to its end. *)
Inductive Input : Type :=
| press_verificar
| press_download
| press_browse (answer : string)
| tick_audio
| type_url (text : string)
| type_destino (text : string)
| pick_resolucao (label : string)
| work.

Definition run_task (t : Task) (w : Window) : M Window :=
  match t with
  | thread_verificar url => _verificar_thread url w
  | thread_download url pasta res audio => _download_thread url pasta res audio w
  | after_atualizar resolucoes => _atualizar_apos_verificacao resolucoes w
  | after_finalizar => _finalizar_download w
  end.

Definition step (i : Input) (w : Window) : M Window :=
  match i with
  | press_verificar =>
      match verificar_btn w with
      | tk_disabled => ret w
      | _ => verificar_video w
      end
  | press_download =>
      match download_btn w with
      | tk_disabled => ret w
      | _ => iniciar_download w
      end
  | press_browse answer => ret (browse_folder answer w)
  | tick_audio => ret (toggle_audio_mode (set_audio (negb (apenas_audio_var w)) w))
  | type_url text => ret (set_url text w)
  | type_destino text => ret (set_destino text w)
  | pick_resolucao label =>
      match resolucao_combo_state w with
      | tk_disabled => ret w
      | _ => ret (set_resolucao label w)
      end
  | work =>
      match tasks w with
      | [] => ret w
      | t :: rest => run_task t (set_tasks rest w)
      end
  end.

(** One input after the other. *)
Fixpoint steps (inputs : list Input) (w : Window) : M Window :=
  match inputs with
  | [] => ret w
  | i :: rest => w' ← step i w ; steps rest w'
  end.

End Gui.

(** The window is idle, or one piece of work is under way, with both
    buttons disabled and the bar running. *)
Definition idle (w : Window) : Prop :=
  tasks w = [] /\ verificar_btn w = tk_normal /\ download_btn w = tk_normal /\
  progresso_bar w = false.

Definition busy (w : Window) : Prop :=
  (exists t, tasks w = [t]) /\ verificar_btn w = tk_disabled /\
  download_btn w = tk_disabled /\ progresso_bar w = true.

(** A [strip] for the samples: spaces at both ends. *)
Fixpoint lstrip (s : string) : string :=
  match s with
  | String " " s' => lstrip s'
  | _ => s
  end.

Definition sample_strip (s : string) : string :=
  String.rev (lstrip (String.rev (lstrip s))).

(** What [verificar_video] and [iniciar_download] check before they start a
    thread, read at the thread's arguments. *)
Definition checked (st : State) (t : Task) : Prop :=
  match t with
  | thread_verificar url => url <> EmptyString
  | thread_download url pasta res audio =>
      url <> EmptyString /\ pasta <> EmptyString /\ pasta ∈ dirs st /\
      res <> Some melhor /\ (audio = true -> res = None)
  | after_atualizar _ => True
  | after_finalizar => True
  end.

(** A world where the video is private. *)
Definition env_private : Env :=
  mkEnv (fun _ => Raised (VideoUnavailable "abc is a private video")) "/home/user"
        (fun _ => None) (fun _ => []) (fun _ _ => None)
        (fun s pasta => Sample.three_chunks s pasta "Clip.mp4").

(** The window after the user typed a URL, in a world where the working
    directory exists. *)
Definition typed : Window := set_url " https://youtu.be/abc " (init "/home/user").

Definition at_home : State := mkState ∅ {["/home/user"]} [].

(** The resolution [iniciar_download] asks for. *)
Definition asked (w : Window) : option string :=
  if negb (String.eqb (resolucao_var w) melhor) && negb (apenas_audio_var w)
  then Some (resolucao_var w) else None.

(** The resolution selector is disabled when the audio box is ticked, and
    read-only otherwise. *)
Definition combo_follows_box (w : Window) : Prop :=
  resolucao_combo_state w = if apenas_audio_var w then tk_disabled else tk_readonly.

(** What holds of the window whatever has happened to it. *)
Definition sound (st : State) (w : Window) : Prop :=
  (idle w \/ busy w) /\ Forall (checked st) (tasks w) /\ combo_follows_box w.

(** * Properties *)

Example splitext_mp4 : OsPath.splitext "/tmp/out/foo.mp4" = ("/tmp/out/foo", ".mp4").
Proof. reflexivity. Qed.
Example splitext_hidden : OsPath.splitext "/tmp/.bashrc" = ("/tmp/.bashrc", EmptyString).
Proof. reflexivity. Qed.
Example splitext_dir_dot : OsPath.splitext "/tmp.d/foo" = ("/tmp.d/foo", EmptyString).
Proof. reflexivity. Qed.
Example splitext_two : OsPath.splitext "a.tar.gz" = ("a.tar", ".gz").
Proof. reflexivity. Qed.
Example basename_ex : OsPath.basename "/tmp/out/foo.mp3" = "foo.mp3".
Proof. reflexivity. Qed.
Example fmt_third : PyFloat.format_1f (PyFloat.fmul (PyFloat.truediv 1 3) 100) = "33.3".
Proof. vm_compute. reflexivity. Qed.
Example fmt_full : PyFloat.format_1f (PyFloat.fmul (PyFloat.truediv 7 7) 100) = "100.0".
Proof. vm_compute. reflexivity. Qed.
Example fmt_tie : PyFloat.format_1f (PyFloat.fmul (PyFloat.truediv 1 8) 2) = "0.2".
Proof. vm_compute. reflexivity. Qed.

(** ** Running computations *)

Lemma bind_run {A B} (m : M A) (f : A -> M B) st :
  bind m f st =
  match m st with
  | (Return a, st') => f a st'
  | (Raised e, st') => (Raised e, st')
  end.
Proof. reflexivity. Qed.

Lemma bind_return {A B} (m : M A) (f : A -> M B) st a st' :
  m st = (Return a, st') -> bind m f st = f a st'.
Proof. intros H. unfold bind. now rewrite H. Qed.

Lemma bind_raised {A B} (m : M A) (f : A -> M B) st e st' :
  m st = (Raised e, st') -> bind m f st = (Raised e, st').
Proof. intros H. unfold bind. now rewrite H. Qed.

Lemma notify_quiet callback msg st :
  quiet callback -> notify callback msg st = (Return tt, deliver callback msg st).
Proof.
  intros Hq. destruct callback as [cb|]; simpl; [|reflexivity].
  now rewrite (Hq cb eq_refl).
Qed.

Lemma eval_return {A} (o : Outcome A) a st : o = Return a -> eval o st = (Return a, st).
Proof. now intros ->. Qed.

Lemma eval_raised {A} (o : Outcome A) e st : o = Raised e -> eval o st = (@Raised A e, st).
Proof. now intros ->. Qed.

(** ** Relations every step keeps *)

Section Keeps.

Variable R : State -> State -> Prop.
Hypothesis R_refl : forall st, R st st.
Hypothesis R_trans : forall a b c, R a b -> R b c -> R a c.

Lemma keeps_ret {A} (a : A) : keeps R (ret a).
Proof. intros st. apply R_refl. Qed.

Lemma keeps_raise {A} e : keeps R (@raise A e).
Proof. intros st. apply R_refl. Qed.

Lemma keeps_eval {A} (o : Outcome A) : keeps R (eval o).
Proof. destruct o; [apply keeps_ret | apply keeps_raise]. Qed.

Lemma keeps_bind {A B} (m : M A) (f : A -> M B) :
  keeps R m -> (forall a, keeps R (f a)) -> keeps R (bind m f).
Proof.
  intros Hm Hf st. unfold bind. specialize (Hm st).
  destruct (m st) as [[a|e] st1]; simpl in *; [|assumption].
  eapply R_trans; [eassumption | apply Hf].
Qed.

Lemma keeps_try_except {A} (m : M A) h :
  keeps R m -> (forall e, keeps R (h e)) -> keeps R (try_except m h).
Proof.
  intros Hm Hh st. unfold try_except. specialize (Hm st).
  destruct (m st) as [[a|e] st1]; simpl in *; [assumption|].
  eapply R_trans; [eassumption | apply Hh].
Qed.

Lemma keeps_for_each {A} (f : A -> M unit) xs :
  (forall x, keeps R (f x)) -> keeps R (for_each f xs).
Proof.
  intros Hf. induction xs as [|x xs IH]; simpl.
  - apply keeps_ret.
  - apply keeps_bind; auto.
Qed.

(** The steps that touch the state. *)
Hypothesis R_files : forall st fs ds, R st (mkState fs ds (trace st)).
Hypothesis R_download : forall st s p, R st (mkState (files st) (dirs st) (trace st ++ [Download s p])).

Lemma keeps_makedirs env p : keeps R (makedirs env p).
Proof. intros st. unfold makedirs. destruct (makedirs_error env p); simpl; auto. Qed.

Lemma keeps_rename env a b : keeps R (rename env a b).
Proof.
  intros st. unfold rename.
  destruct (rename_error env a b); simpl; auto.
  destruct (files st !! a); simpl; auto.
Qed.

Lemma keeps_leave t k : keeps R (leave t k).
Proof.
  intros st. unfold leave. destruct (partial t k) as [[path data]|]; simpl; auto.
Qed.

Lemma keeps_feed t (hook : Z -> M unit) rs :
  (forall r, keeps R (hook r)) -> forall k, keeps R (feed t hook k rs).
Proof.
  intros Hh. induction rs as [|r rs IH]; intros k; simpl.
  - apply keeps_ret.
  - apply keeps_bind; [|intros _; apply IH].
    apply keeps_try_except; [apply Hh|intros e].
    apply keeps_bind; [apply keeps_leave | intros _; apply keeps_raise].
Qed.

Lemma keeps_download env s p hook :
  (forall r, keeps R (hook s r)) -> keeps R (download env s p hook).
Proof.
  intros Hh. unfold download.
  apply keeps_bind; [intros st; apply R_download|intros _].
  apply keeps_bind; [apply keeps_feed, Hh|intros _].
  destruct (landed (transfer env s p)) as [[path data]|e].
  - intros st. simpl. apply R_files.
  - apply keeps_bind; [apply keeps_leave | intros _; apply keeps_raise].
Qed.

Lemma keeps_download_on env x p hook :
  (forall s r, keeps R (hook s r)) -> keeps R (download_on env x p hook).
Proof.
  intros Hh. destruct x; simpl; [apply keeps_download; auto | apply keeps_raise].
Qed.

(** With a callback that keeps [R] the whole of [baixar_video] does. *)
Variable callback : option Callback.
Hypothesis R_notify : forall msg, keeps R (notify callback msg).

Lemma keeps_on_progress s r : keeps R (on_progress callback s r).
Proof.
  unfold on_progress. destruct (filesize s =? 0); [apply keeps_raise | apply R_notify].
Qed.

Lemma keeps_baixar_video_try env url pasta resolucao audio :
  keeps R (baixar_video_try env url pasta resolucao audio callback).
Proof.
  unfold baixar_video_try.
  repeat first
    [ apply R_notify
    | apply keeps_ret
    | apply keeps_raise
    | apply keeps_eval
    | apply keeps_makedirs
    | apply keeps_rename
    | apply keeps_download_on; intros; apply keeps_on_progress
    | apply keeps_bind; [|intros ?]
    | match goal with
      | |- keeps _ (if ?b then _ else _) => destruct b
      | |- keeps _ (match ?x with _ => _ end) => destruct x
      end ].
Qed.

Lemma keeps_baixar_video_except e : keeps R (baixar_video_except callback e).
Proof.
  unfold baixar_video_except.
  apply keeps_bind; [destruct e; apply R_notify | intros _; apply keeps_ret].
Qed.

Lemma keeps_baixar_video env url pasta resolucao audio :
  keeps R (baixar_video env url pasta resolucao audio callback).
Proof.
  apply keeps_try_except; [apply keeps_baixar_video_try | apply keeps_baixar_video_except].
Qed.

End Keeps.

Lemma extends_refl st : extends st st.
Proof. exists []. now rewrite app_nil_r. Qed.

Lemma extends_trans a b c : extends a b -> extends b c -> extends a c.
Proof. intros [e1 H1] [e2 H2]. exists (e1 ++ e2)%list. now rewrite H2, H1, app_assoc. Qed.

Lemma reports_app t1 t2 : reports (t1 ++ t2) = (reports t1 ++ reports t2)%list.
Proof.
  induction t1 as [|[m|s p|] t1 IH]; simpl; [reflexivity| |assumption|assumption].
  now rewrite IH.
Qed.

Lemma downloads_app t1 t2 : downloads (t1 ++ t2) = (downloads t1 ++ downloads t2)%list.
Proof.
  induction t1 as [|[m|s p|] t1 IH]; simpl; [reflexivity|assumption| |assumption].
  now rewrite IH.
Qed.

Lemma notify_extends callback msg : keeps extends (notify callback msg).
Proof.
  intros st. destruct callback as [cb|]; simpl; [|apply extends_refl].
  destruct (cb (reports (trace st)) msg); simpl; now exists [Report msg].
Qed.

Lemma baixar_video_try_extends env url pasta resolucao audio callback :
  keeps extends (baixar_video_try env url pasta resolucao audio callback).
Proof.
  apply keeps_baixar_video_try.
  - apply extends_refl.
  - apply extends_trans.
  - intros st fs ds. exists []. simpl. now rewrite app_nil_r.
  - intros st s p. now exists [Download s p].
  - apply notify_extends.
Qed.

Lemma baixar_video_try_silent env url pasta resolucao audio :
  keeps same_reports (baixar_video_try env url pasta resolucao audio None).
Proof.
  apply keeps_baixar_video_try; unfold same_reports.
  - reflexivity.
  - intros a b c H1 H2. now rewrite H2.
  - reflexivity.
  - intros st s p. simpl. rewrite reports_app. simpl. now rewrite app_nil_r.
  - intros msg st. reflexivity.
Qed.

Lemma baixar_video_silent env url pasta resolucao audio :
  keeps same_reports (baixar_video env url pasta resolucao audio None).
Proof.
  apply keeps_baixar_video; unfold same_reports.
  - reflexivity.
  - intros a b c H1 H2. now rewrite H2.
  - reflexivity.
  - intros st s p. simpl. rewrite reports_app. simpl. now rewrite app_nil_r.
  - intros msg st. reflexivity.
Qed.

(** ** Values a computation can return *)

Lemma yields_ret {A} (P : A -> Prop) a : P a -> yields P (ret a).
Proof. intros H st b st' E. inversion E; now subst. Qed.

Lemma yields_raise {A} (P : A -> Prop) e : yields P (raise e).
Proof. intros st b st' E. discriminate. Qed.

Lemma yields_bind {A B} (P : B -> Prop) (m : M A) (f : A -> M B) :
  (forall a, yields P (f a)) -> yields P (bind m f).
Proof.
  intros Hf st b st' E. unfold bind in E.
  destruct (m st) as [[a|e] st1]; [|discriminate]. eapply Hf, E.
Qed.

Lemma baixar_video_try_yields_path env url pasta resolucao audio callback :
  yields (fun v => exists path, v = Some path)
         (baixar_video_try env url pasta resolucao audio callback).
Proof.
  unfold baixar_video_try.
  repeat first
    [ apply yields_ret; eexists; reflexivity
    | apply yields_bind; intros ?
    | match goal with
      | |- yields _ (if ?b then _ else _) => destruct b
      end ].
Qed.

Lemma baixar_video_except_quiet callback e st :
  quiet callback ->
  baixar_video_except callback e st = (Return None, deliver callback (error_report e) st).
Proof.
  intros Hq. unfold baixar_video_except.
  erewrite bind_return; [reflexivity|].
  destruct e; apply notify_quiet, Hq.
Qed.

(** C1 (amended).  Whatever the URL, the options and the collaborators'
    answers, [baixar_video] called with a callback that returns normally, or
    with none, returns normally, and every failure ends in no file path: when
    the body of the [try] raises an exception, [baixar_video] returns no
    path, and what it does after the exception is to hand the callback, if
    there is one, the one message of the [except] clause for that exception,
    and nothing if there is none.  When the body returns, [baixar_video]
    returns what it returned, which is a path.  So a return without a path
    comes, with a callback, right after the delivery of one of the three
    error messages, and without a callback with nothing delivered at all. *)
Theorem baixar_video_failure_is_reported env url pasta resolucao audio callback st :
  quiet callback ->
  (forall e st1,
     baixar_video_try env url pasta resolucao audio callback st = (Raised e, st1) ->
     baixar_video env url pasta resolucao audio callback st
     = (Return None, mkState (files st1) (dirs st1)
                             (trace st1 ++ heard callback [error_report e]))) /\
  (forall v st1,
     baixar_video_try env url pasta resolucao audio callback st = (Return v, st1) ->
     baixar_video env url pasta resolucao audio callback st = (Return v, st1) /\
     exists path, v = Some path) /\
  exists path st',
    baixar_video env url pasta resolucao audio callback st = (Return path, st') /\
    (path = None ->
     match callback with
     | Some _ => ends_with_error_report st st'
     | None => same_reports st st'
     end).
Proof.
  intros Hq. unfold baixar_video, try_except.
  pose proof (baixar_video_try_extends env url pasta resolucao audio callback st) as Hext.
  pose proof (baixar_video_try_yields_path env url pasta resolucao audio callback st) as Hpath.
  destruct (baixar_video_try env url pasta resolucao audio callback st) as [[v|e] st1] eqn:Hrun.
  - split; [discriminate|]. split.
    + intros v' st' E. inversion E; subst. split; [reflexivity|]. now apply (Hpath v' st').
    + exists v, st1. split; [reflexivity|]. intros ->.
      destruct (Hpath None st1 eq_refl) as [p Hp]. discriminate.
  - rewrite baixar_video_except_quiet by assumption.
    split; [|split; [discriminate|]].
    + intros e' st' E. inversion E; subst.
      destruct callback; [reflexivity|]. destruct st'. simpl. now rewrite app_nil_r.
    + eexists _, _. split; [reflexivity|]. intros _.
      destruct callback as [cb|]; simpl in *.
      * destruct Hext as [evs Hevs]. exists evs, (error_report e).
        split; [now rewrite Hevs, app_assoc | now exists e].
      * pose proof (baixar_video_try_silent env url pasta resolucao audio st) as Hs.
        now rewrite Hrun in Hs.
Qed.

Lemma quiet_some (cb : Callback) : (forall told msg, cb told msg = None) -> quiet (Some cb).
Proof. intros H cb' E. now inversion E; subst. Qed.

Lemma quiet_none : quiet None.
Proof. intros cb E. discriminate. Qed.

(** One step of a run whose outcome is known. *)
Ltac known_step :=
  first
    [ erewrite bind_return by
        first [ apply notify_quiet; eassumption
              | apply eval_return; eassumption
              | reflexivity ]
    | erewrite bind_raised by
        first [ apply eval_raised; eassumption
              | reflexivity ] ];
  cbv beta.

(** C1, witness: the private video, with a listening callback: the
    resolver raises, no path is returned and the error is the last thing
    said. *)
Lemma baixar_video_failure_is_reported_witness :
  quiet (Some Sample.listener) /\
  baixar_video Sample.env "private" None None false (Some Sample.listener) Sample.start
  = (Return None, mkState ∅ ∅ [Report msg_conectando; Report msg_indisponivel]).
Proof.
  split.
  - intros cb E told msg. inversion E. reflexivity.
  - refine (proj1 (baixar_video_failure_is_reported
                     Sample.env "private" None None false (Some Sample.listener) Sample.start _)
                  (VideoUnavailable "abc is a private video")
                  (mkState ∅ ∅ [Report msg_conectando]) _).
    + intros cb E told msg. inversion E. reflexivity.
    + reflexivity.
Defined.

(** C1, counterexample: called without a callback, as [main] calls it, on
    the private video, [baixar_video] returns no path and delivers nothing. *)
Lemma C1_counterexample : ~ C1_as_stated.
Proof.
  intros H.
  destruct (H Sample.env "private" None None false None Sample.start)
    as (path & st' & Hrun & Hend).
  vm_compute in Hrun. inversion Hrun; subst.
  destruct (Hend eq_refl) as (evs & m & Hm & _).
  simpl in Hm. destruct evs; discriminate.
Qed.

(** A callback that raises defeats the [except] clauses, which call it again. *)
Example raising_callback_escapes :
  let angry : Callback := fun _ _ => Some (OtherException "main thread is not in main loop") in
  fst (baixar_video Sample.env "ok" None None false (Some angry) Sample.start)
  = Raised (OtherException "main thread is not in main loop").
Proof. vm_compute. reflexivity. Qed.

(** C7 (amended).  When the resolver raises [VideoUnavailable] while the
    video is resolved, [baixar_video] returns no file path and does not raise,
    and the callback has received exactly two messages: the connecting notice
    that precedes the resolution, then the one message of the
    [VideoUnavailable] clause. *)
Theorem unavailable_video_is_reported env url pasta resolucao audio (cb : Callback) st :
  (forall told msg, cb told msg = None) ->
  unavailable_at_resolution env url ->
  baixar_video env url pasta resolucao audio (Some cb) st
  = (Return None,
     mkState (files st) (dirs st)
             (trace st ++ [Report msg_conectando; Report msg_indisponivel])).
Proof.
  intros Hcb Hun. apply quiet_some in Hcb.
  assert (Htry : exists m,
    baixar_video_try env url pasta resolucao audio (Some cb) st
    = (Raised (VideoUnavailable m), deliver (Some cb) msg_conectando st)).
  { unfold baixar_video_try.
    destruct Hun as [[m Hm] | (yt & m & Hyt & Hm)]; exists m.
    - now repeat known_step.
    - now repeat known_step. }
  destruct Htry as [m Htry].
  unfold baixar_video, try_except. rewrite Htry.
  rewrite baixar_video_except_quiet by assumption.
  simpl. now rewrite <- app_assoc.
Qed.

(** C7, witness: the private video. *)
Lemma unavailable_video_is_reported_witness :
  (forall told msg, Sample.listener told msg = None) /\
  unavailable_at_resolution Sample.env "private" /\
  baixar_video Sample.env "private" (Some "out") (Some "720p") false
               (Some Sample.listener) Sample.start
  = (Return None,
     mkState ∅ ∅ [Report msg_conectando; Report msg_indisponivel]).
Proof.
  split; [reflexivity|]. split.
  - left. eexists. reflexivity.
  - apply (unavailable_video_is_reported Sample.env "private" (Some "out") (Some "720p")
             false Sample.listener Sample.start).
    + reflexivity.
    + left. eexists. reflexivity.
Defined.

(** C7, counterexample: on the private video two messages reach the
    callback, not one. *)
Lemma C7_counterexample : ~ C7_as_stated.
Proof.
  intros H.
  destruct (H Sample.env "private" None None false Sample.listener Sample.start)
    as (st' & Hrun & Hrep).
  - reflexivity.
  - left. eexists. reflexivity.
  - vm_compute in Hrun. inversion Hrun; subst. vm_compute in Hrep. discriminate.
Qed.

Lemma makedirs_ok env p st :
  makedirs_error env p = None ->
  makedirs env p st
  = (Return tt,
     mkState (files st) ({[p]} ∪ (list_to_set (makedirs_made env p) ∪ dirs st)) (trace st)).
Proof. intros H. unfold makedirs. now rewrite H. Qed.

Lemma makedirs_fails env p e st :
  makedirs_error env p = Some e ->
  makedirs env p st
  = (Raised e, mkState (files st) (list_to_set (makedirs_made env p) ∪ dirs st) (trace st)).
Proof. intros H. unfold makedirs. now rewrite H. Qed.

Lemma heard_app callback a b :
  heard callback (a ++ b) = (heard callback a ++ heard callback b)%list.
Proof. destruct callback; simpl; [apply map_app | reflexivity]. Qed.

Lemma deliver_heard callback msg st :
  deliver callback msg st
  = mkState (files st) (dirs st) (trace st ++ heard callback [msg]).
Proof.
  destruct callback; [reflexivity|]. destruct st. simpl. now rewrite app_nil_r.
Qed.

Lemma downloads_heard callback msgs : downloads (heard callback msgs) = [].
Proof. destruct callback; simpl; [|reflexivity]. induction msgs; simpl; auto. Qed.

Lemma filter_nothing {A} (f : A -> bool) xs :
  Forall (fun x => f x = false) xs -> List.filter f xs = [].
Proof.
  induction 1 as [|x xs Hx _ IH]; simpl; [reflexivity|]. now rewrite Hx.
Qed.

(** C6 (amended).  When the resolver answers with a list of streams none
    of which is audio-only, an audio-only request made with a callback that
    returns normally, or with none, ends as a failure: [baixar_video] returns
    no file path and does not raise, it starts no download and writes no
    file.  With a callback the last thing it does is to deliver an error
    message; without one nothing is said.  When the video information was
    read and the folder made, what is said is the connecting notice, the
    information, the audio notice and the error of the missing stream. *)
Theorem no_audio_stream_is_terminal env url pasta resolucao callback st yt streams :
  quiet callback ->
  YouTube env url = Return yt ->
  yt_streams yt = Return streams ->
  Forall (fun s => only_audio s = false) streams ->
  exists st',
    baixar_video env url pasta resolucao true callback st = (Return None, st') /\
    files st' = files st /\
    downloads (trace st') = downloads (trace st) /\
    match callback with
    | Some _ => ends_with_error_report st st'
    | None => trace st' = trace st
    end /\
    (forall info,
       video_info yt = Return info ->
       makedirs_error env (destination env pasta) = None ->
       trace st'
       = (trace st ++ heard callback [msg_conectando; info; "Baixando apenas áudio...";
                                      msg_sem_download])%list).
Proof.
  intros Hq Hyt Hss Hnone. apply filter_nothing in Hnone.
  change (filter_only_audio streams = []) in Hnone.
  assert (Htry : exists e msgs ds,
    baixar_video_try env url pasta resolucao true callback st
    = (Raised e, mkState (files st) ds (trace st ++ heard callback msgs)) /\
    (forall info,
       video_info yt = Return info ->
       makedirs_error env (destination env pasta) = None ->
       e = OtherException "'NoneType' object has no attribute 'download'" /\
       msgs = [msg_conectando; info; "Baixando apenas áudio..."])).
  { unfold baixar_video_try.
    change (match pasta with Some p => p | None => getcwd env end) with (destination env pasta).
    destruct (video_info yt) as [info|e] eqn:Hinfo.
    - destruct (makedirs_error env (destination env pasta)) as [e|] eqn:Hmk.
      + exists e, [msg_conectando; info]. eexists. split; [|discriminate].
        repeat known_step.
        erewrite bind_raised by (apply makedirs_fails; eassumption).
        rewrite !deliver_heard. cbn [files dirs trace].
        rewrite <- app_assoc, <- heard_app. reflexivity.
      + eexists _, [msg_conectando; info; "Baixando apenas áudio..."]. eexists. split.
        * repeat known_step.
          erewrite bind_return by (apply makedirs_ok; eassumption). cbv beta.
          repeat known_step. unfold first. rewrite Hnone.
          erewrite bind_raised by reflexivity.
          rewrite !deliver_heard. cbn [files dirs trace].
          rewrite <- !app_assoc, <- !heard_app. reflexivity.
        * intros info' Hi _. inversion Hi; subst. now split.
    - exists e, [msg_conectando]. eexists. split; [|discriminate].
      repeat known_step. rewrite deliver_heard. reflexivity. }
  destruct Htry as (e & msgs & ds & Htry & Hexact).
  unfold baixar_video, try_except. rewrite Htry.
  rewrite baixar_video_except_quiet by assumption.
  eexists. split; [reflexivity|].
  rewrite deliver_heard. cbn [files dirs trace].
  split; [reflexivity|]. split.
  { now rewrite !downloads_app, !downloads_heard, !app_nil_r. }
  split.
  - destruct callback as [cb|]; simpl.
    + exists (map Report msgs), (error_report e).
      split; [now rewrite <- app_assoc | now exists e].
    + now rewrite !app_nil_r.
  - intros info Hinfo Hmk. destruct (Hexact info Hinfo Hmk) as [-> ->].
    rewrite <- app_assoc, <- heard_app. reflexivity.
Qed.

(** C6, witness: the video whose resolver lists no audio-only stream,
    asked for with a listening callback, which hears the error last, and
    without a callback, as [main] does, when nothing is said. *)
Lemma no_audio_stream_is_terminal_witness :
  (exists st',
     baixar_video Sample.env "mute" (Some "out") None true (Some Sample.listener) Sample.start
     = (Return None, st') /\
     files st' = ∅ /\
     downloads (trace st') = [] /\
     trace st' = [Report msg_conectando; Report Faults.clip_info;
                  Report "Baixando apenas áudio..."; Report msg_sem_download]) /\
  (exists st',
     baixar_video Sample.env "mute" (Some "out") None true None Sample.start
     = (Return None, st') /\
     files st' = ∅ /\
     downloads (trace st') = [] /\
     trace st' = []).
Proof.
  split.
  - destruct (no_audio_stream_is_terminal Sample.env "mute" (Some "out") None
                (Some Sample.listener) Sample.start Sample.clip_no_audio
                [Sample.s1080; Sample.s720; Sample.s360])
      as (st' & Hrun & Hfiles & Hdown & _ & Hexact).
    + now apply quiet_some.
    + reflexivity.
    + reflexivity.
    + repeat constructor.
    + exists st'. split; [exact Hrun|]. split; [exact Hfiles|]. split; [exact Hdown|].
      apply (Hexact Faults.clip_info); reflexivity.
  - destruct (no_audio_stream_is_terminal Sample.env "mute" (Some "out") None None
                Sample.start Sample.clip_no_audio [Sample.s1080; Sample.s720; Sample.s360])
      as (st' & Hrun & Hfiles & Hdown & Hsilent & _).
    + exact quiet_none.
    + reflexivity.
    + reflexivity.
    + repeat constructor.
    + exists st'. split; [exact Hrun|]. split; [exact Hfiles|]. split; [exact Hdown|].
      exact Hsilent.
Defined.

(** C6, counterexample: without a callback, on the video with no
    audio-only stream, [baixar_video] returns no path and nothing is said. *)
Lemma C6_counterexample : ~ C6_as_stated.
Proof.
  intros H.
  destruct (H Sample.env "mute" (Some "out") None None Sample.start
              Sample.clip_no_audio [Sample.s1080; Sample.s720; Sample.s360])
    as (st' & Hrun & evs & m & Hm & _).
  - exact quiet_none.
  - reflexivity.
  - reflexivity.
  - repeat constructor.
  - vm_compute in Hrun. inversion Hrun; subst.
    simpl in Hm. destruct evs; discriminate.
Qed.

Example no_audio_stream_message :
  reports (trace (snd (baixar_video Sample.env "mute" (Some "out") None true
                                    (Some Sample.listener) Sample.start)))
  = [ msg_conectando;
      "Título: Clip" +:+ nl +:+ "Duração: 212 segundos" +:+ nl +:+ "Visualizações: 1500" +:+ nl;
      "Baixando apenas áudio...";
      "Erro inesperado: 'NoneType' object has no attribute 'download'" ].
Proof. vm_compute. reflexivity. Qed.

(** C10 (amended).  Called with a callback that returns normally, or with
    none, [obter_resolucoes] returns normally.  When one of the collaborator
    reads raises it returns the empty list, after delivering, if there is a
    callback, the error message made from the exception; otherwise it returns
    the resolution labels of the progressive streams in resolver order. *)
Theorem obter_resolucoes_lists_or_reports env url callback st :
  quiet callback ->
  obter_resolucoes env url callback st
  = let st1 := deliver callback "Obtendo informações do vídeo..." st in
    match listing env url callback with
    | Raised e => (Return [], deliver callback (msg_erro_resolucoes e) st1)
    | Return (streams, title) =>
        (Return (map resolution (filter_progressive streams)),
         deliver callback ("Título do vídeo: " +:+ title) st1)
    end.
Proof.
  intros Hq. unfold obter_resolucoes, try_except, listing. cbv zeta.
  assert (Hh : forall e s,
    (notify callback ("Erro ao obter resoluções: " +:+ str e) ;; ret []) s
    = (Return (@nil (option string)), deliver callback (msg_erro_resolucoes e) s)).
  { intros e s. erewrite bind_return by (apply notify_quiet; eassumption). reflexivity. }
  known_step.
  destruct (YouTube env url) as [yt|e] eqn:Hyt; [|known_step; apply Hh].
  known_step.
  destruct (yt_streams yt) as [ss|e] eqn:Hss; [|known_step; apply Hh].
  known_step.
  destruct callback as [cb|].
  - destruct (yt_title yt) as [t|e] eqn:Ht.
    + now repeat known_step.
    + erewrite bind_raised; [apply Hh|]. now known_step.
  - reflexivity.
Qed.

(** C10, witness: the sample video, with a listening callback. *)
Lemma obter_resolucoes_lists_or_reports_witness :
  quiet (Some Sample.listener) /\
  fst (obter_resolucoes Sample.env "ok" (Some Sample.listener) Sample.start)
  = Return [Some "720p"; Some "360p"].
Proof.
  split.
  - intros cb E told msg. inversion E. reflexivity.
  - rewrite (obter_resolucoes_lists_or_reports Sample.env "ok" (Some Sample.listener) Sample.start).
    + reflexivity.
    + intros cb E told msg. inversion E. reflexivity.
Defined.

(** C10, counterexample: without a callback a raising resolver ends in the
    empty list and no delivered message. *)
Lemma C10_counterexample : ~ C10_as_stated.
Proof.
  intros H.
  destruct (H Sample.env "private" None Sample.start) as (labels & st' & Hrun & Hraise & _).
  vm_compute in Hrun. inversion Hrun; subst.
  destruct (Hraise (VideoUnavailable "abc is a private video") eq_refl) as (_ & evs & Hevs).
  simpl in Hevs. destruct evs; discriminate.
Qed.

(** ** Downloads *)

Lemma downloads_reports msgs : downloads (map Report msgs) = [].
Proof. induction msgs; simpl; auto. Qed.

Lemma deliver_files callback msg st : files (deliver callback msg st) = files st.
Proof. now destruct callback. Qed.

Lemma deliver_dirs callback msg st : dirs (deliver callback msg st) = dirs st.
Proof. now destruct callback. Qed.

Lemma deliver_trace callback msg st :
  exists msgs, trace (deliver callback msg st) = (trace st ++ map Report msgs)%list.
Proof.
  destruct callback; [now exists [msg] | exists []; simpl; now rewrite app_nil_r].
Qed.

(** The progress hook only talks: it leaves the files alone and adds at
    most a report to the trace, whether it returns or raises. *)
Lemma on_progress_talks callback s r st :
  files (snd (on_progress callback s r st)) = files st /\
  dirs (snd (on_progress callback s r st)) = dirs st /\
  exists msgs,
    trace (snd (on_progress callback s r st)) = (trace st ++ map Report msgs)%list.
Proof.
  unfold on_progress. destruct (filesize s =? 0); simpl.
  - split; [|split]; auto. exists []. simpl. now rewrite app_nil_r.
  - destruct callback as [cb|]; simpl.
    + destruct (cb _ _); simpl; (split; [|split]; auto); eexists [_]; reflexivity.
    + split; [|split]; auto. exists []. simpl. now rewrite app_nil_r.
Qed.

Lemma for_each_on_progress_talks callback s rs st :
  files (snd (for_each (on_progress callback s) rs st)) = files st /\
  dirs (snd (for_each (on_progress callback s) rs st)) = dirs st /\
  exists msgs,
    trace (snd (for_each (on_progress callback s) rs st)) = (trace st ++ map Report msgs)%list.
Proof.
  revert st. induction rs as [|r rs IH]; intros st; simpl.
  - split; [|split]; auto. exists []. simpl. now rewrite app_nil_r.
  - rewrite bind_run.
    destruct (on_progress_talks callback s r st) as (Hf & Hd & m1 & Ht).
    destruct (on_progress callback s r st) as [[[]|e] st1]; simpl in *.
    + destruct (IH st1) as (Hf' & Hd' & m2 & Ht').
      rewrite Hf', Hd', Ht', Hf, Hd, Ht. split; [|split]; auto.
      exists (m1 ++ m2)%list. now rewrite map_app, app_assoc.
    + split; [|split]; auto. now exists m1.
Qed.

(** With a callback that returns and a stream of non-zero size the hook
    runs over every chunk and delivers one message for each. *)
Lemma for_each_on_progress_quiet callback s rs st :
  quiet callback -> filesize s <> 0 ->
  for_each (on_progress callback s) rs st
  = (Return tt, fold_left (fun st r => deliver callback (msg_baixado (filesize s) r) st) rs st).
Proof.
  intros Hq Hn. revert st. induction rs as [|r rs IH]; intros st; simpl; [reflexivity|].
  erewrite bind_return; [apply IH|].
  unfold on_progress. apply Z.eqb_neq in Hn. rewrite Hn.
  now apply notify_quiet.
Qed.

Lemma fold_deliver_talks callback (f : Z -> string) rs st :
  files (fold_left (fun st r => deliver callback (f r) st) rs st) = files st /\
  dirs (fold_left (fun st r => deliver callback (f r) st) rs st) = dirs st /\
  exists msgs,
    trace (fold_left (fun st r => deliver callback (f r) st) rs st)
    = (trace st ++ map Report msgs)%list.
Proof.
  revert st. induction rs as [|r rs IH]; intros st; simpl.
  - split; [|split]; auto. exists []. simpl. now rewrite app_nil_r.
  - destruct (IH (deliver callback (f r) st)) as (Hf & Hd & msgs & Ht).
    rewrite Hf, Hd, Ht, deliver_files, deliver_dirs.
    destruct (deliver_trace callback (f r) st) as [m1 Hm1]. rewrite Hm1.
    split; [|split]; auto. exists (m1 ++ msgs)%list. now rewrite map_app, app_assoc.
Qed.

(** What an abandoned download leaves is a file: folders and trace stay. *)
Lemma leave_run t k st :
  exists fs, leave t k st = (Return tt, mkState fs (dirs st) (trace st)).
Proof.
  unfold leave. destruct (partial t k) as [[path data]|]; [now eexists|].
  exists (files st). now destruct st.
Qed.

(** While every hook returns, feeding the chunks is the loop over them. *)
Lemma feed_returns t (hook : Z -> M unit) rs : forall k st st',
  for_each hook rs st = (Return tt, st') -> feed t hook k rs st = (Return tt, st').
Proof.
  induction rs as [|r rs IH]; intros k st st' H; simpl in *; [assumption|].
  rewrite bind_run in *. unfold try_except.
  destruct (hook r st) as [[[]|e] st1]; [now apply IH | discriminate].
Qed.

(** The first hook that raises ends the feeding, with its exception. *)
Lemma feed_raised t (hook : Z -> M unit) rs : forall k st e st1,
  for_each hook rs st = (Raised e, st1) ->
  exists fs, feed t hook k rs st = (Raised e, mkState fs (dirs st1) (trace st1)).
Proof.
  induction rs as [|r rs IH]; intros k st e st1 H; simpl in *; [discriminate|].
  rewrite bind_run in *. unfold try_except.
  destruct (hook r st) as [[[]|e'] st2].
  - now apply IH.
  - inversion H; subst. rewrite bind_run.
    destruct (leave_run t (S k) st1) as [fs ->]. now exists fs.
Qed.

Lemma feed_talks callback s t rs k st :
  dirs (snd (feed t (on_progress callback s) k rs st)) = dirs st /\
  exists msgs,
    trace (snd (feed t (on_progress callback s) k rs st)) = (trace st ++ map Report msgs)%list.
Proof.
  destruct (for_each_on_progress_talks callback s rs st) as (_ & Hd & msgs & Ht).
  destruct (for_each (on_progress callback s) rs st) as [[[]|e] st1] eqn:Hrun; simpl in *.
  - rewrite (feed_returns t _ rs k st st1 Hrun). simpl. split; [assumption | now exists msgs].
  - destruct (feed_raised t _ rs k st e st1 Hrun) as [fs ->]. simpl.
    split; [assumption | now exists msgs].
Qed.

Lemma download_talks env s p callback st :
  exists msgs,
    trace (snd (download env s p (on_progress callback) st))
    = (trace st ++ Download s p :: map Report msgs)%list.
Proof.
  unfold download. cbv zeta. rewrite bind_run. simpl.
  set (st1 := mkState (files st) (dirs st) (trace st ++ [Download s p])).
  rewrite bind_run.
  destruct (feed_talks callback s (transfer env s p) (chunks (transfer env s p)) 0%nat st1)
    as (_ & msgs & Ht).
  destruct (feed (transfer env s p) (on_progress callback s) 0 (chunks (transfer env s p)) st1)
    as [[[]|e] st2]; simpl in *; exists msgs.
  - destruct (landed (transfer env s p)) as [[path data]|e]; simpl.
    + now rewrite Ht, <- app_assoc.
    + rewrite bind_run.
      destruct (leave_run (transfer env s p) (length (chunks (transfer env s p))) st2)
        as [fs ->].
      simpl. now rewrite Ht, <- app_assoc.
  - now rewrite Ht, <- app_assoc.
Qed.

Lemma download_ok env s p callback st path data :
  quiet callback -> filesize s <> 0 ->
  landed (transfer env s p) = Return (path, data) ->
  exists st',
    download env s p (on_progress callback) st = (Return path, st') /\
    files st' = <[path := data]> (files st) /\
    dirs st' = dirs st /\
    exists msgs, trace st' = (trace st ++ Download s p :: map Report msgs)%list.
Proof.
  intros Hq Hn Hl. unfold download. cbv zeta.
  erewrite bind_return by reflexivity.
  erewrite bind_return by (now apply feed_returns, for_each_on_progress_quiet).
  rewrite Hl. eexists. split; [reflexivity|]. simpl.
  match goal with |- context [fold_left ?f ?rs ?s1] =>
    destruct (fold_deliver_talks callback (msg_baixado (filesize s)) rs s1) as (Hf & Hd & msgs & Ht)
  end.
  simpl in *. rewrite Hf, Hd, Ht. split; [|split]; auto.
  exists msgs. now rewrite <- app_assoc.
Qed.

(** Once the stream is chosen, [baixar_video] starts its download, and
    nothing but reports follows. *)
Lemma video_tail_trace env callback s pasta st :
  quiet callback ->
  exists msgs,
    trace (snd (video_tail env callback (Some s) pasta st))
    = (trace (deliver callback (msg_baixando s) st) ++ Download s pasta :: map Report msgs)%list.
Proof.
  intros Hq. unfold video_tail, try_except.
  assert (Hfirst :
    match callback with
    | Some _ => notify callback ("Baixando vídeo com resolução " +:+ py_str (resolution s) +:+ "...")
    | None => ret tt
    end st = (Return tt, deliver callback (msg_baixando s) st)).
  { destruct callback; [now apply notify_quiet | reflexivity]. }
  erewrite bind_return by exact Hfirst.
  set (st1 := deliver callback (msg_baixando s) st).
  rewrite bind_run. simpl download_on.
  destruct (download_talks env s pasta callback st1) as [msgs Ht].
  destruct (download env s pasta (on_progress callback) st1) as [[path|e] st2]; simpl in Ht.
  - erewrite bind_return by (now apply notify_quiet). simpl.
    destruct (deliver_trace callback ("Vídeo baixado e salvo como " +:+ OsPath.basename path) st2)
      as [m Hm].
    exists (msgs ++ m)%list. rewrite Hm, Ht, map_app, <- app_assoc. reflexivity.
  - rewrite baixar_video_except_quiet by assumption. simpl.
    destruct (deliver_trace callback (error_report e) st2) as [m Hm].
    exists (msgs ++ m)%list. rewrite Hm, Ht, map_app, <- app_assoc. reflexivity.
Qed.

(** ** Choosing the stream *)

Lemma fold_higher_spec ps acc :
  match fold_left higher ps acc with
  | None => ps = [] /\ acc = None
  | Some b =>
      (In b ps \/ acc = Some b) /\
      (forall s, In s ps -> label_number s <= label_number b) /\
      (forall a, acc = Some a -> label_number a <= label_number b)
  end.
Proof.
  revert acc. induction ps as [|p ps IH]; intros acc; simpl.
  - destruct acc as [a|]; [|auto].
    split; [now right|]. split; [contradiction|]. intros a' E. inversion E. lia.
  - specialize (IH (higher acc p)).
    destruct (fold_left higher ps (higher acc p)) as [b|].
    + destruct IH as (Hin & Hmax & Hacc).
      assert (Hp : label_number p <= label_number b).
      { unfold higher in Hacc. destruct acc as [a|]; [|now apply Hacc].
        destruct (label_number a <=? label_number p) eqn:E.
        - now apply Hacc.
        - apply Z.leb_gt in E. specialize (Hacc a eq_refl). lia. }
      split; [|split].
      * destruct Hin as [Hin|Hin]; [left; now right|].
        unfold higher in Hin. destruct acc as [a|].
        -- destruct (label_number a <=? label_number p); inversion Hin; subst; auto.
        -- inversion Hin; subst. auto.
      * intros s [->|Hs]; auto.
      * intros a ->. unfold higher in Hacc.
        destruct (label_number a <=? label_number p) eqn:E.
        -- apply Z.leb_le in E. lia.
        -- now apply Hacc.
    + destruct IH as [_ IH]. unfold higher in IH.
      destruct acc as [a|]; [destruct (label_number a <=? label_number p)|]; discriminate.
Qed.

Lemma filter_all {A} (f : A -> bool) xs : forallb f xs = true -> List.filter f xs = xs.
Proof.
  induction xs as [|x xs IH]; simpl; [reflexivity|].
  intros H. apply andb_prop in H as [Hx Hxs]. rewrite Hx. f_equal. auto.
Qed.

(** The model of [get_highest_resolution] answers a progressive stream
    whose label no other progressive stream exceeds. *)
Lemma get_highest_resolution_spec streams :
  forallb labelled (filter_progressive streams) = true ->
  filter_progressive streams <> [] ->
  exists best,
    get_highest_resolution streams = Some best /\
    In best (filter_progressive streams) /\
    (forall s, In s (filter_progressive streams) -> label_number s <= label_number best).
Proof.
  intros Hl Hne. unfold get_highest_resolution. rewrite (filter_all _ _ Hl).
  pose proof (fold_higher_spec (filter_progressive streams) None) as H.
  destruct (fold_left higher (filter_progressive streams) None) as [b|].
  - destruct H as ([Hin|Hin] & Hmax & _); [|discriminate]. exists b. auto.
  - destruct H as [H _]. contradiction.
Qed.

Lemma first_none_labelled i (ps : list Stream) :
  forallb labelled ps = true -> first_none i (map resolution ps) = None.
Proof.
  revert i. induction ps as [|p ps IH]; intros i; simpl; [reflexivity|].
  intros H. apply andb_prop in H as [Hp Hps]. unfold labelled in Hp.
  destruct (resolution p); [auto | discriminate].
Qed.

Lemma join_labelled sep (ps : list Stream) :
  forallb labelled ps = true ->
  join sep (map resolution ps) = Return (String.concat sep (omap id (map resolution ps))).
Proof. intros H. unfold join. now rewrite first_none_labelled. Qed.

(** The first steps of [baixar_video], up to the folder. *)
Ltac resolved_steps Hmk :=
  unfold baixar_video_try;
  repeat known_step;
  erewrite bind_return by (apply makedirs_ok; exact Hmk); cbv beta.

Lemma rename_ok env src dst st data :
  rename_error env src dst = None ->
  files st !! src = Some data ->
  rename env src dst st
  = (Return tt, mkState (<[dst := data]> (delete src (files st))) (dirs st) (trace st)).
Proof. intros He Hs. unfold rename. now rewrite He, Hs. Qed.

(** The state in which the video branch chooses its stream. *)
Lemma video_branch_ready env url pasta callback st yt info streams :
  quiet callback ->
  YouTube env url = Return yt ->
  video_info yt = Return info ->
  makedirs_error env (destination env pasta) = None ->
  yt_streams yt = Return streams ->
  forallb labelled (filter_progressive streams) = true ->
  exists ready,
    trace ready = trace (deliver callback (msg_resolucoes streams)
                   (deliver callback info (deliver callback msg_conectando st))) /\
    forall resolucao : option string,
      baixar_video env url pasta resolucao false callback st
      = match
          (if truthy resolucao then
             match first (filter_progressive_resolution (py_str resolucao) streams) with
             | Some stream => ret (Some stream)
             | None =>
                 notify callback (msg_fallback (py_str resolucao)) ;;
                 ret (get_highest_resolution streams)
             end
           else ret (get_highest_resolution streams)) ready
        with
        | (Return stream, st') => video_tail env callback stream (destination env pasta) st'
        | (Raised e, st') => baixar_video_except callback e st'
        end.
Proof.
  intros Hq Hyt Hinfo Hmk Hss Hl.
  pose proof (join_labelled ", " _ Hl) as Hjoin.
  set (st2 := deliver callback info (deliver callback msg_conectando st)).
  set (st3 := mkState (files st2)
                ({[destination env pasta]}
                   ∪ (list_to_set (makedirs_made env (destination env pasta)) ∪ dirs st2))
                (trace st2)).
  exists (deliver callback (msg_resolucoes streams) st3).
  split; [destruct callback; reflexivity|]. intros res.
  unfold baixar_video, try_except. resolved_steps Hmk. repeat known_step.
  fold st2. fold st3.
  assert (Hlist :
    match callback with
    | Some _ =>
        joined ← eval (join ", " (map resolution (filter_progressive streams))) ;
        notify callback ("Resoluções disponíveis: " +:+ joined)
    | None => ret tt
    end st3 = (Return tt, deliver callback (msg_resolucoes streams) st3)).
  { destruct callback as [cb|]; [|reflexivity]. repeat known_step. now apply notify_quiet. }
  erewrite bind_return by exact Hlist. cbv beta.
  unfold video_tail, try_except.
  match goal with
  | |- context [bind ?m ?f (deliver callback (msg_resolucoes streams) st3)] =>
      rewrite (bind_run m f); destruct (m (deliver callback (msg_resolucoes streams) st3))
        as [[x|e] s1]
  end; reflexivity.
Qed.

Lemma downloads_deliver callback msg st :
  downloads (trace (deliver callback msg st)) = downloads (trace st).
Proof.
  destruct callback; simpl; [|reflexivity].
  rewrite downloads_app. simpl. now rewrite app_nil_r.
Qed.

Lemma first_filter_some {A} (f : A -> bool) xs x :
  List.head (List.filter f xs) = Some x -> f x = true /\ In x xs.
Proof.
  induction xs as [|y xs IH]; simpl; [discriminate|].
  destruct (f y) eqn:E; simpl.
  - intros H. inversion H; subst. auto.
  - intros H. destruct (IH H). auto.
Qed.

(** C2.  When the request is for video and names no resolution ([None] or
    the empty string), and the resolver has answered with at least one
    progressive stream, the one download [baixar_video] starts is on the
    stream [get_highest_resolution] answers, which is a progressive stream
    whose label, read as a number, no other progressive stream exceeds. *)
Theorem highest_resolution_by_default env url pasta resolucao callback st yt info streams :
  quiet callback ->
  truthy resolucao = false ->
  YouTube env url = Return yt ->
  video_info yt = Return info ->
  makedirs_error env (destination env pasta) = None ->
  yt_streams yt = Return streams ->
  forallb labelled (filter_progressive streams) = true ->
  filter_progressive streams <> [] ->
  exists best,
    get_highest_resolution streams = Some best /\
    In best (filter_progressive streams) /\
    (forall s, In s (filter_progressive streams) -> label_number s <= label_number best) /\
    downloads (trace (snd (baixar_video env url pasta resolucao false callback st)))
    = (downloads (trace st) ++ [(best, destination env pasta)])%list.
Proof.
  intros Hq Hres Hyt Hinfo Hmk Hss Hl Hne.
  destruct (get_highest_resolution_spec streams Hl Hne) as (best & Hbest & Hin & Hmax).
  exists best. split; [assumption|]. split; [assumption|]. split; [assumption|].
  destruct (video_branch_ready env url pasta callback st yt info streams Hq Hyt Hinfo Hmk Hss Hl)
    as (ready & Htr & Hrun).
  rewrite Hrun, Hres, Hbest. cbn [ret].
  destruct (video_tail_trace env callback best (destination env pasta) ready Hq) as [msgs Ht].
  rewrite Ht, downloads_app, downloads_deliver, Htr, !downloads_deliver.
  simpl. now rewrite downloads_reports.
Qed.

(** C2, witness: the sample video, no resolution asked; 720p is chosen,
    not the 360p stream the resolver lists last, nor the 1080p stream, which
    is not progressive. *)
Lemma highest_resolution_by_default_witness :
  exists best,
    get_highest_resolution Sample.all_streams = Some best /\
    In best (filter_progressive Sample.all_streams) /\
    (forall s, In s (filter_progressive Sample.all_streams) ->
               label_number s <= label_number best) /\
    downloads (trace (snd (baixar_video Sample.env "ok" None None false
                                        (Some Sample.listener) Sample.start)))
    = [(best, "/home/user")].
Proof.
  apply (highest_resolution_by_default Sample.env "ok" None None (Some Sample.listener)
           Sample.start Sample.clip
           ("Título: Clip" +:+ nl +:+ "Duração: 212 segundos" +:+ nl
            +:+ "Visualizações: 1500" +:+ nl)
           Sample.all_streams).
  - intros cb E told msg. inversion E. reflexivity.
  - reflexivity.
  - reflexivity.
  - reflexivity.
  - reflexivity.
  - reflexivity.
  - reflexivity.
  - discriminate.
Defined.

Example highest_is_720p : get_highest_resolution Sample.all_streams = Some Sample.s720.
Proof. reflexivity. Qed.

Lemma get_highest_resolution_is_highest streams best :
  forallb labelled (filter_progressive streams) = true ->
  get_highest_resolution streams = Some best ->
  In best (filter_progressive streams) /\
  (forall s, In s (filter_progressive streams) -> label_number s <= label_number best).
Proof.
  intros Hl Hb.
  destruct (filter_progressive streams) as [|p ps] eqn:E.
  - unfold get_highest_resolution in Hb. rewrite E in Hb. discriminate.
  - rewrite <- E in *.
    destruct (get_highest_resolution_spec streams Hl) as (b & Hb' & H).
    + rewrite E. discriminate.
    + rewrite Hb in Hb'. inversion Hb'; subst. exact H.
Qed.

Lemma reports_map msgs : reports (map Report msgs) = msgs.
Proof. induction msgs as [|m msgs IH]; simpl; [reflexivity | now rewrite IH]. Qed.

Lemma matches_test r s :
  is_progressive s && has_resolution r s = true <-> matches r s.
Proof.
  unfold matches, has_resolution. rewrite andb_true_iff.
  destruct (resolution s) as [l|].
  - rewrite String.eqb_eq. split; intros [Hp Hl]; split; congruence.
  - split; intros [Hp Hl]; discriminate.
Qed.

Lemma progressive_labelled streams :
  Forall (fun s => is_progressive s = true -> labelled s = true) streams ->
  forallb labelled (filter_progressive streams) = true.
Proof.
  unfold filter_progressive. induction 1 as [|x xs Hx _ IH]; simpl; [reflexivity|].
  destruct (is_progressive x) eqn:E; [|exact IH]. simpl. now rewrite Hx, IH.
Qed.

(** The first stream that matches is the one the filter puts first. *)
Lemma first_match r front s back :
  matches r s ->
  Forall (fun x => ~ matches r x) front ->
  first (filter_progressive_resolution r (front ++ s :: back)) = Some s.
Proof.
  intros Hs Hfront. unfold first, filter_progressive_resolution.
  induction Hfront as [|x front Hx _ IH]; simpl.
  - apply matches_test in Hs. now rewrite Hs.
  - destruct (is_progressive x && has_resolution r x) eqn:E; [|exact IH].
    apply matches_test in E. contradiction.
Qed.

Lemma no_match r streams :
  Forall (fun x => ~ matches r x) streams ->
  first (filter_progressive_resolution r streams) = None.
Proof.
  intros H. unfold first, filter_progressive_resolution.
  induction H as [|x xs Hx _ IH]; simpl; [reflexivity|].
  destruct (is_progressive x && has_resolution r x) eqn:E; [|exact IH].
  apply matches_test in E. contradiction.
Qed.

(** What the trace holds once the stream is chosen, when [pre] was said
    before: the download notice, the start of the download, then only
    reports, and none of them without a callback. *)
Lemma chosen_stream_trace env url pasta resolucao callback st ready s pre :
  quiet callback ->
  trace ready = (trace st ++ heard callback pre)%list ->
  baixar_video env url pasta resolucao false callback st
  = video_tail env callback (Some s) (destination env pasta) ready ->
  exists msgs,
    trace (snd (baixar_video env url pasta resolucao false callback st))
    = (trace st ++ heard callback (pre ++ [msg_baixando s])
                ++ [Download s (destination env pasta)] ++ heard callback msgs)%list.
Proof.
  intros Hq Hready Hrun.
  destruct (video_tail_trace env callback s (destination env pasta) ready Hq) as [msgs Ht].
  destruct callback as [cb|].
  - exists msgs. rewrite Hrun, Ht. simpl. rewrite Hready. simpl.
    rewrite map_app, <- !app_assoc. reflexivity.
  - assert (Hnone : msgs = []).
    { pose proof (baixar_video_silent env url pasta resolucao false st) as Hs.
      unfold same_reports in Hs. rewrite Hrun, Ht in Hs. simpl in Hs.
      rewrite Hready in Hs. simpl in Hs.
      rewrite app_nil_r, reports_app in Hs. simpl in Hs. rewrite reports_map in Hs.
      rewrite <- (app_nil_r (reports (trace st))) in Hs at 2.
      now apply app_inv_head in Hs. }
    subst msgs. exists []. rewrite Hrun, Ht. simpl. rewrite Hready. simpl.
    now rewrite !app_nil_r.
Qed.

(** C3 (amended).  When the request is for video and names a resolution,
    and the resolver has answered, then with a callback that returns
    normally, or with none: if a progressive stream carries that label, the
    first such stream in resolver order is the one downloaded, and no
    fallback notice is given; if none does, the download is on the
    progressive stream with the highest label, and the callback, when there
    is one, is told of the fallback before the download starts.  Without a
    callback nothing is said in either case. *)
Theorem requested_resolution_or_fallback env url pasta r callback st yt info streams :
  quiet callback ->
  r <> EmptyString ->
  YouTube env url = Return yt ->
  video_info yt = Return info ->
  makedirs_error env (destination env pasta) = None ->
  yt_streams yt = Return streams ->
  Forall (fun s => is_progressive s = true -> labelled s = true) streams ->
  let after := trace (snd (baixar_video env url pasta (Some r) false callback st)) in
  let dest := destination env pasta in
  (forall front s back,
     streams = (front ++ s :: back)%list ->
     matches r s ->
     Forall (fun x => ~ matches r x) front ->
     exists msgs,
       after = (trace st
                  ++ heard callback [msg_conectando; info; msg_resolucoes streams; msg_baixando s]
                  ++ [Download s dest] ++ heard callback msgs)%list) /\
  (Forall (fun x => ~ matches r x) streams ->
   forall best, get_highest_resolution streams = Some best ->
     In best streams /\ is_progressive best = true /\
     (forall s, In s streams -> is_progressive s = true ->
                label_number s <= label_number best) /\
     exists msgs,
       after = (trace st
                  ++ heard callback [msg_conectando; info; msg_resolucoes streams;
                                     msg_fallback r; msg_baixando best]
                  ++ [Download best dest] ++ heard callback msgs)%list).
Proof.
  intros Hq Hr Hyt Hinfo Hmk Hss Hl after dest. apply progressive_labelled in Hl.
  destruct (video_branch_ready env url pasta callback st yt info streams Hq Hyt Hinfo Hmk Hss Hl)
    as (ready & Htr & Hrun).
  rewrite !deliver_heard in Htr. cbn [trace] in Htr.
  rewrite <- !app_assoc, <- !heard_app in Htr. cbn [app] in Htr.
  assert (Htruthy : truthy (Some r) = true).
  { simpl. apply negb_true_iff. now apply String.eqb_neq. }
  specialize (Hrun (Some r)). rewrite Htruthy in Hrun. cbn [py_str] in Hrun.
  split.
  - intros front s back Hstreams Hs Hfront.
    assert (Hfirst : first (filter_progressive_resolution r streams) = Some s)
      by (rewrite Hstreams; now apply first_match).
    rewrite Hfirst in Hrun.
    cbn [ret] in Hrun.
    apply (chosen_stream_trace env url pasta (Some r) callback st ready s
             [msg_conectando; info; msg_resolucoes streams] Hq Htr Hrun).
  - intros Hnone best Hbest.
    destruct (get_highest_resolution_is_highest streams best Hl Hbest) as [Hin Hmax].
    unfold filter_progressive in Hin. apply filter_In in Hin as [Hin Hp].
    split; [assumption|]. split; [assumption|]. split.
    { intros s Hs Hsp. apply Hmax. unfold filter_progressive. apply filter_In. now split. }
    rewrite no_match in Hrun by assumption.
    erewrite bind_return in Hrun by (now apply notify_quiet). cbn [ret] in Hrun.
    rewrite Hbest in Hrun.
    apply (chosen_stream_trace env url pasta (Some r) callback st
             (deliver callback (msg_fallback r) ready) best
             [msg_conectando; info; msg_resolucoes streams; msg_fallback r] Hq);
      [|exact Hrun].
    rewrite deliver_heard. cbn [trace]. rewrite Htr, <- app_assoc, <- heard_app. reflexivity.
Qed.

(** C3, witness: of the sample video 360p is asked, which the fourth stream
    carries and which is not the highest: that stream is downloaded; and
    4000p is asked, which no stream carries: the fallback notice comes before
    the download of the 720p stream. *)
Lemma requested_resolution_or_fallback_witness :
  (exists msgs,
     trace (snd (baixar_video Sample.env "ok" (Some "out") (Some "360p") false
                              (Some Sample.listener) Sample.start))
     = ([Report msg_conectando;
         Report ("Título: Clip" +:+ nl +:+ "Duração: 212 segundos" +:+ nl
                 +:+ "Visualizações: 1500" +:+ nl);
         Report (msg_resolucoes Sample.all_streams);
         Report (msg_baixando Sample.s360);
         Download Sample.s360 "out"] ++ map Report msgs)%list) /\
  (exists msgs,
     trace (snd (baixar_video Sample.env "ok" (Some "out") (Some "4000p") false
                              (Some Sample.listener) Sample.start))
     = ([Report msg_conectando;
         Report ("Título: Clip" +:+ nl +:+ "Duração: 212 segundos" +:+ nl
                 +:+ "Visualizações: 1500" +:+ nl);
         Report (msg_resolucoes Sample.all_streams);
         Report (msg_fallback "4000p");
         Report (msg_baixando Sample.s720);
         Download Sample.s720 "out"] ++ map Report msgs)%list).
Proof.
  split.
  - refine (proj1 (requested_resolution_or_fallback Sample.env "ok" (Some "out") "360p"
                     (Some Sample.listener) Sample.start Sample.clip
                     ("Título: Clip" +:+ nl +:+ "Duração: 212 segundos" +:+ nl
                      +:+ "Visualizações: 1500" +:+ nl)
                     Sample.all_streams _ _ _ _ _ _ _)
                  [Sample.s1080; Sample.s720; Sample.a128] Sample.s360 [Sample.a160] _ _ _).
    + now apply quiet_some.
    + discriminate.
    + reflexivity.
    + reflexivity.
    + reflexivity.
    + reflexivity.
    + repeat constructor; intros Hp; (reflexivity || discriminate).
    + reflexivity.
    + split; reflexivity.
    + repeat constructor; intros [Hp Hl]; discriminate.
  - refine (proj2 (proj2 (proj2 (proj2 (requested_resolution_or_fallback
                     Sample.env "ok" (Some "out") "4000p"
                     (Some Sample.listener) Sample.start Sample.clip
                     ("Título: Clip" +:+ nl +:+ "Duração: 212 segundos" +:+ nl
                      +:+ "Visualizações: 1500" +:+ nl)
                     Sample.all_streams _ _ _ _ _ _ _) _ Sample.s720 _)))).
    + now apply quiet_some.
    + discriminate.
    + reflexivity.
    + reflexivity.
    + reflexivity.
    + reflexivity.
    + repeat constructor; intros Hp; (reflexivity || discriminate).
    + repeat constructor; intros [Hp Hl]; discriminate.
    + reflexivity.
Defined.

(** C3, counterexample: 4000p asked of the sample video without a
    callback, as [main] asks: the 720p stream is downloaded and no notice is
    given. *)
Lemma C3_counterexample : ~ C3_as_stated.
Proof.
  intros H.
  destruct (H Sample.env "ok" (Some "out") "4000p" None Sample.start Sample.clip
              ("Título: Clip" +:+ nl +:+ "Duração: 212 segundos" +:+ nl
               +:+ "Visualizações: 1500" +:+ nl)
              Sample.all_streams Sample.s720)
    as (evs1 & evs2 & Htrace & _).
  - exact quiet_none.
  - discriminate.
  - reflexivity.
  - reflexivity.
  - reflexivity.
  - reflexivity.
  - repeat constructor; intros Hp; (reflexivity || discriminate).
  - repeat constructor; intros [Hp Hl]; discriminate.
  - reflexivity.
  - vm_compute in Htrace.
    destruct evs1 as [|x [|y evs1]]; simpl in Htrace; discriminate.
Qed.

(** Without a callback the stream asked for is downloaded in silence. *)
Example requested_360p_without_callback :
  trace (snd (baixar_video Sample.env "ok" (Some "out") (Some "360p") false None Sample.start))
  = [Download Sample.s360 "out"].
Proof. vm_compute. reflexivity. Qed.

Example requested_360p_is_downloaded :
  downloads (trace (snd (baixar_video Sample.env "ok" (Some "out") (Some "360p") false
                                      (Some Sample.listener) Sample.start)))
  = [(Sample.s360, "out")].
Proof. vm_compute. reflexivity. Qed.

(** ** The audio branch *)

Lemma str_take_drop n s : OsPath.str_take n s +:+ OsPath.str_drop n s = s.
Proof.
  revert s. induction n as [|n IH]; intros [|a s]; try reflexivity.
  change (String a (OsPath.str_take n s +:+ OsPath.str_drop n s) = String a s).
  now rewrite IH.
Qed.

(** [splitext] cuts the path in two. *)
Lemma splitext_app p : fst (OsPath.splitext p) +:+ snd (OsPath.splitext p) = p.
Proof.
  unfold OsPath.splitext.
  destruct (_ && _); simpl; [apply str_take_drop|].
  induction p as [|a p IH]; [reflexivity|].
  change (String a (p +:+ EmptyString) = String a p). now rewrite IH.
Qed.

(** C4 (amended).  When the request is audio-only and every step
    succeeds, the stream downloaded is the first audio-only stream in resolver
    order, the path returned is the downloaded path with its extension
    replaced by [.mp3], the file at that path holds the downloaded bytes
    unchanged, every other file is as it was, and nothing is left at the
    downloaded path, unless that path already ended in [.mp3], when the two
    paths are one. *)
Theorem audio_is_renamed_to_mp3
    env url pasta resolucao callback st yt info streams audio path data :
  let dest := destination env pasta in
  let novo := fst (OsPath.splitext path) +:+ ".mp3" in
  quiet callback ->
  YouTube env url = Return yt ->
  video_info yt = Return info ->
  makedirs_error env dest = None ->
  yt_streams yt = Return streams ->
  first (filter_only_audio streams) = Some audio ->
  filesize audio <> 0 ->
  landed (transfer env audio dest) = Return (path, data) ->
  rename_error env path novo = None ->
  exists st',
    baixar_video env url pasta resolucao true callback st = (Return (Some novo), st') /\
    downloads (trace st') = (downloads (trace st) ++ [(audio, dest)])%list /\
    files st' !! novo = Some data /\
    (path <> novo -> files st' !! path = None) /\
    (forall other, other <> path -> other <> novo -> files st' !! other = files st !! other).
Proof.
  intros dest novo Hq Hyt Hinfo Hmk Hss Haudio Hsize Hland Hren.
  unfold baixar_video, try_except. resolved_steps Hmk. repeat known_step.
  rewrite Haudio. cbn [download_on].
  match goal with |- context [bind (download env audio ?d ?h) _ ?s] =>
    destruct (download_ok env audio d callback s path data Hq Hsize Hland)
      as (st2 & Hrun & Hf & Hd & msgs & Ht)
  end.
  erewrite bind_return by exact Hrun. cbv beta.
  erewrite bind_return by
    (apply rename_ok with (data := data); [exact Hren | rewrite Hf; apply lookup_insert_eq]).
  cbv beta.
  erewrite bind_return by (now apply notify_quiet). cbn [ret].
  eexists. split; [reflexivity|].
  rewrite downloads_deliver, deliver_files. cbn [trace files].
  rewrite Ht, Hf, downloads_app. cbn [downloads]. rewrite downloads_reports.
  repeat (rewrite downloads_deliver || rewrite deliver_files || cbn [trace files]).
  split; [reflexivity|]. split; [apply lookup_insert_eq|]. split.
  - intros Hne. rewrite lookup_insert_ne by (intros E; now apply Hne).
    apply lookup_delete_eq.
  - intros other H1 H2.
    rewrite lookup_insert_ne by (intros E; now apply H2).
    rewrite lookup_delete_ne by (intros E; now apply H1).
    now rewrite lookup_insert_ne by (intros E; now apply H1).
Qed.

(** C4, witness: audio of the sample video; [out/Clip.mp4] becomes
    [out/Clip.mp3]. *)
Lemma audio_is_renamed_to_mp3_witness :
  exists st',
    baixar_video Sample.env "ok" (Some "out") None true (Some Sample.listener) Sample.start
    = (Return (Some "out/Clip.mp3"), st') /\
    downloads (trace st') = [(Sample.a128, "out")] /\
    files st' !! "out/Clip.mp3" = Some "payload" /\
    ("out/Clip.mp4" <> "out/Clip.mp3" -> files st' !! "out/Clip.mp4" = None) /\
    (forall other, other <> "out/Clip.mp4" -> other <> "out/Clip.mp3" ->
                   files st' !! other = files Sample.start !! other).
Proof.
  apply (audio_is_renamed_to_mp3 Sample.env "ok" (Some "out") None (Some Sample.listener)
           Sample.start Sample.clip
           ("Título: Clip" +:+ nl +:+ "Duração: 212 segundos" +:+ nl
            +:+ "Visualizações: 1500" +:+ nl)
           Sample.all_streams Sample.a128 "out/Clip.mp4" "payload").
  - intros cb E told msg. inversion E. reflexivity.
  - reflexivity.
  - reflexivity.
  - reflexivity.
  - reflexivity.
  - reflexivity.
  - discriminate.
  - reflexivity.
  - reflexivity.
Defined.

(** C4, counterexample: when the audio lands as [out/Clip.mp3] the rename
    is onto itself and the file is still at the path the download wrote. *)
Lemma C4_counterexample : ~ C4_as_stated.
Proof.
  intros H.
  destruct (H Sample.env_mp3 "ok" (Some "out") None (Some Sample.listener) Sample.start
              Sample.clip
              ("Título: Clip" +:+ nl +:+ "Duração: 212 segundos" +:+ nl
               +:+ "Visualizações: 1500" +:+ nl)
              Sample.all_streams Sample.a128 "out/Clip.mp3" "payload")
    as (st' & Hrun & _ & _ & Hgone);
    try reflexivity.
  - intros cb E told msg. inversion E. reflexivity.
  - discriminate.
  - vm_compute in Hrun. inversion Hrun; subst. vm_compute in Hgone. discriminate.
Qed.

(** ** The command line *)

Lemma baixar_video_without_callback env url pasta resolucao audio st :
  exists path,
    baixar_video env url pasta resolucao audio None st
    = (Return path, snd (baixar_video env url pasta resolucao audio None st)).
Proof.
  unfold baixar_video, try_except.
  destruct (baixar_video_try env url pasta resolucao audio None st) as [[v|e] st1].
  - now exists v.
  - exists None. destruct e; reflexivity.
Qed.

(** C8 (amended).  For every CLI invocation, [main] calls [baixar_video]
    once, on the calling thread, with the URL and the parsed options and with
    no callback; it returns normally whatever the download did, and no message
    is delivered or printed. *)
Theorem main_calls_without_reporter env argv st :
  cli_mode argv = true ->
  main env argv st
  = (Return tt,
     snd (baixar_video env (nth 1 argv EmptyString)
                       (pasta_destino (main_args argv))
                       (resolucao (main_args argv))
                       (apenas_audio (main_args argv))
                       None st)) /\
  reports (trace (snd (main env argv st))) = reports (trace st).
Proof.
  intros Hcli. unfold main. rewrite Hcli.
  destruct (baixar_video_without_callback env (nth 1 argv EmptyString)
              (pasta_destino (main_args argv)) (resolucao (main_args argv))
              (apenas_audio (main_args argv)) st) as [path Hrun].
  erewrite bind_return by exact Hrun. cbn [ret]. split; [reflexivity|].
  apply baixar_video_silent.
Qed.

(** C8, witness: the CLI on the private video ends silently. *)
Lemma main_calls_without_reporter_witness :
  cli_mode ["youtube_downloader.py"; "private"] = true /\
  main Sample.env ["youtube_downloader.py"; "private"] Sample.start = (Return tt, Sample.start).
Proof.
  split; [reflexivity|].
  destruct (main_calls_without_reporter Sample.env ["youtube_downloader.py"; "private"]
              Sample.start eq_refl) as [Hrun _].
  exact Hrun.
Defined.

(** C8, counterexample: with any callback the first thing [baixar_video]
    does is to call it; after [main] no call is in the trace. *)
Lemma C8_counterexample : ~ C8_as_stated.
Proof.
  intros H. unfold C8_as_stated in H.
  specialize (H Sample.env ["youtube_downloader.py"; "private"] Sample.start eq_refl).
  destruct H as [cb Hcb].
  apply (f_equal (fun r => reports (trace (snd r)))) in Hcb.
  cbv in Hcb.
  repeat (match type of Hcb with
          | context [match cb ?a ?b with _ => _ end] => destruct (cb a b) as [[?|?|?]|]
          end; cbv in Hcb);
    discriminate.
Qed.

(** C9.  The argument loop does not step over the label it has just read
    after [--resolucao]: when no folder came before, the label itself, as any
    token that does not start with two dashes, is taken as the destination
    folder as well. *)
Theorem resolucao_label_taken_as_folder prog url label :
  String.prefix "--" label = false ->
  main_args [prog; url; "--resolucao"; label] = mkArgs (Some label) (Some label) false.
Proof.
  intros Hlabel.
  assert (Haudio : String.eqb label "--audio" = false).
  { destruct (String.eqb_spec label "--audio") as [->|]; [discriminate | reflexivity]. }
  assert (Hres : String.eqb label "--resolucao" = false).
  { destruct (String.eqb_spec label "--resolucao") as [->|]; [discriminate | reflexivity]. }
  unfold main_args. cbn [List.length Nat.sub seq fold_left].
  unfold main_loop_body at 2. cbn [nth]. cbn.
  unfold main_loop_body. cbn [nth pasta_destino resolucao apenas_audio].
  now rewrite Haudio, Hres, Hlabel.
Qed.

(** C9, witness: [--resolucao 720p] with no folder given. *)
Lemma resolucao_label_taken_as_folder_witness :
  main_args ["youtube_downloader.py"; "https://youtu.be/abc"; "--resolucao"; "720p"]
  = mkArgs (Some "720p") (Some "720p") false.
Proof.
  apply (resolucao_label_taken_as_folder "youtube_downloader.py" "https://youtu.be/abc" "720p").
  reflexivity.
Defined.

Example folder_before_resolucao :
  main_args ["youtube_downloader.py"; "https://youtu.be/abc"; "out"; "--resolucao"; "720p"; "--audio"]
  = mkArgs (Some "out") (Some "720p") true.
Proof. reflexivity. Qed.

Example folder_after_resolucao_is_lost :
  main_args ["youtube_downloader.py"; "https://youtu.be/abc"; "--resolucao"; "720p"; "out"]
  = mkArgs (Some "720p") (Some "720p") false.
Proof. reflexivity. Qed.

(** The loop sets [apenas_audio] exactly when one of the arguments after
    the URL is [--audio]. *)
Lemma main_loop_audio argv idx a :
  apenas_audio (fold_left (main_loop_body argv) idx a)
  = apenas_audio a || existsb (fun i => String.eqb (nth i argv EmptyString) "--audio") idx.
Proof.
  revert a. induction idx as [|i idx IH]; intros a; simpl.
  - now rewrite orb_false_r.
  - rewrite IH. unfold main_loop_body.
    destruct (String.eqb (nth i argv EmptyString) "--audio"); simpl.
    + now rewrite orb_true_r.
    + destruct (_ && _); simpl; [reflexivity|].
      destruct (_ && _); reflexivity.
Qed.

Lemma main_args_audio argv :
  apenas_audio (main_args argv)
  = existsb (fun i => String.eqb (nth i argv EmptyString) "--audio")
            (seq 2 (List.length argv - 2)).
Proof. unfold main_args. now rewrite main_loop_audio. Qed.

(** ** Rounding *)

Module PyFloatFacts.
Import PyFloat.
Local Open Scope Q_scope.

Lemma round_half_even_floor x :
  (Qfloor x <= round_half_even x <= Qfloor x + 1)%Z.
Proof.
  unfold round_half_even.
  destruct (Qcompare _ _); [destruct (Z.even _)| |]; lia.
Qed.

Lemma round_half_even_mono x y : x <= y -> (round_half_even x <= round_half_even y)%Z.
Proof.
  intros Hxy.
  pose proof (Qfloor_resp_le x y Hxy) as Hf.
  destruct (Z.eq_dec (Qfloor x) (Qfloor y)) as [E|N].
  - unfold round_half_even. rewrite E.
    destruct (Qcompare_spec (x - inject_Z (Qfloor y)) (1 # 2)) as [Hx|Hx|Hx];
      destruct (Qcompare_spec (y - inject_Z (Qfloor y)) (1 # 2)) as [Hy|Hy|Hy];
      try (destruct (Z.even (Qfloor y))); try lia; exfalso; lra.
  - pose proof (round_half_even_floor x). pose proof (round_half_even_floor y). lia.
Qed.

Lemma round_half_even_comp x y : x == y -> round_half_even x = round_half_even y.
Proof.
  intros H. unfold round_half_even.
  rewrite (Qfloor_comp x y H).
  now rewrite (Qcompare_comp (x - inject_Z (Qfloor y)) (y - inject_Z (Qfloor y))
                 ltac:(now rewrite H) (1 # 2) (1 # 2) ltac:(reflexivity)).
Qed.

Lemma round_half_even_Z z : round_half_even (inject_Z z) = z.
Proof.
  unfold round_half_even. rewrite Qfloor_Z.
  destruct (Qcompare_spec (inject_Z z - inject_Z z) (1 # 2)) as [H|H|H];
    [exfalso; lra | reflexivity | exfalso; lra].
Qed.

(** *** Powers of two *)

Lemma pow2_pos k : 0 < 2 ^ k.
Proof. apply Qpower_0_lt. reflexivity. Qed.

Lemma pow2_add a b : 2 ^ (a + b) == 2 ^ a * 2 ^ b.
Proof. apply Qpower_plus. discriminate. Qed.

Lemma pow2_le a b : (a <= b)%Z -> 2 ^ a <= 2 ^ b.
Proof. intros H. apply Qpower_le_compat_l; [assumption | discriminate]. Qed.

Lemma pow2_Z n : (0 <= n)%Z -> inject_Z (2 ^ n) == 2 ^ n.
Proof. intros H. now rewrite Zpower_Qpower. Qed.

(** *** The binade of a positive rational *)

Lemma log2_bounds a : (0 < a)%Z -> 2 ^ (Z.log2 a) <= inject_Z a < 2 ^ (Z.log2 a + 1).
Proof.
  intros Ha. destruct (Z.log2_spec a Ha) as [H1 H2].
  pose proof (Z.log2_nonneg a) as Hn.
  rewrite <- !pow2_Z by lia. rewrite <- Zle_Qle, <- Zlt_Qlt.
  replace (Z.log2 a + 1)%Z with (Z.succ (Z.log2 a)) by lia. auto.
Qed.

Lemma ilog2_spec q : 0 < q -> 2 ^ ilog2 q <= q < 2 ^ (ilog2 q + 1).
Proof.
  intros Hq. unfold ilog2.
  set (d := (Z.log2 (Qnum q) - Z.log2 (Z.pos (Qden q)))%Z).
  assert (Ha : (0 < Qnum q)%Z).
  { destruct q as [a b]. unfold Qlt in Hq. simpl in *. lia. }
  destruct (log2_bounds _ Ha) as [A1 A2].
  destruct (log2_bounds (Z.pos (Qden q)) eq_refl) as [B1 B2].
  set (la := Z.log2 (Qnum q)) in *. set (lb := Z.log2 (Z.pos (Qden q))) in *.
  assert (HB : 0 < inject_Z (Z.pos (Qden q))) by reflexivity.
  assert (Hqab : q * inject_Z (Z.pos (Qden q)) == inject_Z (Qnum q)).
  { destruct q as [a b]. simpl. rewrite (Qmake_Qdiv a b). field. discriminate. }
  assert (Hup : q < 2 ^ (d + 1)).
  { apply (Qmult_lt_r _ _ _ HB). rewrite Hqab.
    eapply Qlt_le_trans; [exact A2|].
    replace (la + 1)%Z with ((d + 1) + lb)%Z by (unfold d; lia).
    rewrite pow2_add. apply Qmult_le_l; [apply pow2_pos | exact B1]. }
  assert (Hlow : 2 ^ (d - 1) <= q).
  { apply (Qmult_le_r _ _ _ HB). rewrite Hqab.
    eapply Qle_trans; [|exact A1].
    replace la with ((d - 1) + (lb + 1))%Z by (unfold d; lia).
    rewrite pow2_add. apply Qmult_le_l; [apply pow2_pos | apply Qlt_le_weak, B2]. }
  destruct (Qle_bool (2 ^ d) q) eqn:E.
  - apply Qle_bool_iff in E. split; assumption.
  - split; [assumption|].
    replace (d - 1 + 1)%Z with d by lia.
    apply Qnot_le_lt. intros H. apply Qle_bool_iff in H. congruence.
Qed.

Lemma binade_unique q e e' :
  2 ^ e <= q < 2 ^ (e + 1) -> 2 ^ e' <= q < 2 ^ (e' + 1) -> (e <= e')%Z.
Proof.
  intros [H1 H2] [H3 H4].
  destruct (Z_le_gt_dec e e') as [|G]; [assumption|exfalso].
  assert (H : 2 ^ (e' + 1) <= 2 ^ e) by (apply pow2_le; lia).
  lra.
Qed.

Lemma ilog2_mono x y : 0 < x -> x <= y -> (ilog2 x <= ilog2 y)%Z.
Proof.
  intros Hx Hxy.
  assert (Hy : 0 < y) by lra.
  destruct (ilog2_spec x Hx) as [H1 H2]. destruct (ilog2_spec y Hy) as [H3 H4].
  destruct (Z_le_gt_dec (ilog2 x) (ilog2 y)) as [|G]; [assumption|exfalso].
  assert (H : 2 ^ (ilog2 y + 1) <= 2 ^ ilog2 x) by (apply pow2_le; lia).
  lra.
Qed.

Lemma ilog2_comp x y : 0 < x -> x == y -> ilog2 x = ilog2 y.
Proof.
  intros Hx E. apply Z.le_antisymm; apply ilog2_mono; lra.
Qed.

Lemma ilog2_pow2 e : ilog2 (2 ^ e) = e.
Proof.
  pose proof (ilog2_spec (2 ^ e) (pow2_pos e)) as H.
  assert (He : 2 ^ e <= 2 ^ e < 2 ^ (e + 1)).
  { split; [lra|]. apply Qpower_lt_compat_l; [lia | reflexivity]. }
  apply Z.le_antisymm; eapply binade_unique; eassumption.
Qed.

(** *** Rounding to a grid of spacing [2^k] *)

Lemma grid_mono k x y : x <= y -> grid k x <= grid k y.
Proof.
  intros H. unfold grid.
  apply Qmult_le_compat_r; [|apply Qlt_le_weak, pow2_pos].
  rewrite <- Zle_Qle. apply round_half_even_mono.
  apply Qmult_le_compat_r; [assumption|].
  apply Qlt_le_weak, Qinv_lt_0_compat, pow2_pos.
Qed.

Lemma grid_pow2 k j : (k <= j)%Z -> grid k (2 ^ j) == 2 ^ j.
Proof.
  intros H. unfold grid.
  assert (E : 2 ^ j / 2 ^ k == inject_Z (2 ^ (j - k))).
  { rewrite pow2_Z by lia. replace j with ((j - k) + k)%Z at 1 by lia.
    rewrite pow2_add. field. apply Qnot_eq_sym, Qlt_not_eq, pow2_pos. }
  rewrite (round_half_even_comp _ _ E), round_half_even_Z, pow2_Z by lia.
  rewrite <- pow2_add. now replace (j - k + k)%Z with j by lia.
Qed.

Lemma grid_comp k x y : x == y -> grid k x == grid k y.
Proof.
  intros H. unfold grid.
  now rewrite (round_half_even_comp (x / 2 ^ k) (y / 2 ^ k)) by (now rewrite H).
Qed.

Lemma round_float_grid x : round_float x = grid (ulp_exp x) x.
Proof. reflexivity. Qed.

Lemma ulp_exp_comp x y : 0 < x -> x == y -> ulp_exp x = ulp_exp y.
Proof.
  intros Hx E. unfold ulp_exp. f_equal. f_equal.
  apply ilog2_comp; [|now rewrite E].
  rewrite Qabs_pos; lra.
Qed.

Lemma round_float_comp x y : 0 < x -> x == y -> round_float x == round_float y.
Proof.
  intros Hx E. rewrite !round_float_grid, (ulp_exp_comp x y Hx E). now apply grid_comp.
Qed.

Lemma round_float_zero x : x == 0 -> round_float x == 0.
Proof.
  intros E. unfold round_float, grid.
  assert (E' : x / 2 ^ ulp_exp x == inject_Z 0).
  { generalize (2 ^ ulp_exp x). intros p. rewrite E. unfold Qdiv. change (inject_Z 0) with 0. ring. }
  rewrite (round_half_even_comp _ _ E'), round_half_even_Z. ring.
Qed.

(** Rounding to the nearest float keeps the order of non-negative reals. *)
Lemma round_float_mono x y : 0 <= x -> x <= y -> round_float x <= round_float y.
Proof.
  intros Hx Hxy.
  destruct (Qlt_le_dec 0 x) as [Hpos|Hzero].
  - assert (Hy : 0 < y) by lra.
    rewrite !round_float_grid. unfold ulp_exp.
    rewrite (ilog2_comp (Qabs x) x), (ilog2_comp (Qabs y) y);
      try (apply Qabs_pos; lra); try (rewrite Qabs_pos; lra).
    pose proof (ilog2_mono x y Hpos Hxy) as Hl.
    destruct (ilog2_spec x Hpos) as [X1 X2]. destruct (ilog2_spec y Hy) as [Y1 Y2].
    set (kx := Z.max (ilog2 x - 52) (-1074)). set (ky := Z.max (ilog2 y - 52) (-1074)).
    destruct (Z.eq_dec kx ky) as [E|N].
    + rewrite E. now apply grid_mono.
    + assert (Hlt : (ilog2 x + 1 <= ilog2 y)%Z) by (unfold kx, ky in N; lia).
      assert (Hb : 2 ^ (ilog2 x + 1) <= 2 ^ ilog2 y) by now apply pow2_le.
      apply Qle_trans with (2 ^ ilog2 y).
      * rewrite <- (grid_pow2 kx (ilog2 y)) by (unfold kx; lia).
        apply grid_mono. lra.
      * rewrite <- (grid_pow2 ky (ilog2 y)) at 1 by (unfold ky; lia).
        now apply grid_mono.
  - assert (E : x == 0) by lra.
    rewrite (round_float_zero x E).
    unfold round_float, grid.
    apply Qmult_le_0_compat; [|apply Qlt_le_weak, pow2_pos].
    change 0 with (inject_Z 0). rewrite <- Zle_Qle.
    rewrite <- (round_half_even_Z 0). apply round_half_even_mono.
    change (inject_Z 0) with 0.
    apply Qmult_le_0_compat; [lra|]. apply Qlt_le_weak, Qinv_lt_0_compat, pow2_pos.
Qed.

Lemma round_float_nonneg x : 0 <= x -> 0 <= round_float x.
Proof.
  intros H. rewrite <- (round_float_zero 0) by reflexivity.
  apply round_float_mono; lra.
Qed.

End PyFloatFacts.

(** ** Progress *)

Lemma porcentagem_mono n r1 r2 :
  0 < n -> r2 <= r1 -> r1 <= n ->
  (0 <= porcentagem n r1 /\ porcentagem n r1 <= porcentagem n r2)%Q.
Proof.
  intros Hn H21 H1n. unfold porcentagem, PyFloat.fmul, PyFloat.truediv.
  assert (Hn' : (0 < inject_Z n)%Q) by (change 0%Q with (inject_Z 0); now rewrite <- Zlt_Qlt).
  assert (Hinv : (0 < / inject_Z n)%Q) by now apply Qinv_lt_0_compat.
  assert (Ha1 : (0 <= inject_Z (n - r1))%Q).
  { change 0%Q with (inject_Z 0). rewrite <- Zle_Qle. lia. }
  assert (Ha : (inject_Z (n - r1) <= inject_Z (n - r2))%Q) by (rewrite <- Zle_Qle; lia).
  assert (Hq1 : (0 <= inject_Z (n - r1) / inject_Z n)%Q).
  { apply Qmult_le_0_compat; [assumption | now apply Qlt_le_weak]. }
  assert (Hq : (inject_Z (n - r1) / inject_Z n <= inject_Z (n - r2) / inject_Z n)%Q).
  { apply Qmult_le_compat_r; [assumption | now apply Qlt_le_weak]. }
  pose proof (PyFloatFacts.round_float_nonneg _ Hq1) as Ht1.
  pose proof (PyFloatFacts.round_float_mono _ _ Hq1 Hq) as Ht.
  split.
  - apply PyFloatFacts.round_float_nonneg. apply Qmult_le_0_compat; [assumption|discriminate].
  - apply PyFloatFacts.round_float_mono.
    + apply Qmult_le_0_compat; [assumption|discriminate].
    + apply Qmult_le_compat_r; [assumption|discriminate].
Qed.

Lemma tenths_mono x y : (0 <= x)%Q -> (x <= y)%Q -> PyFloat.tenths x <= PyFloat.tenths y.
Proof.
  intros Hx Hxy. unfold PyFloat.tenths.
  apply PyFloatFacts.round_half_even_mono.
  rewrite !Qabs_pos by lra. lra.
Qed.

Lemma round_float_one : (PyFloat.round_float 1 == 1)%Q.
Proof. vm_compute. reflexivity. Qed.

Lemma round_float_hundred : (PyFloat.round_float 100 == 100)%Q.
Proof. vm_compute. reflexivity. Qed.

(** When nothing remains the percentage is exactly 100. *)
Lemma porcentagem_done n : n <> 0 -> (porcentagem n 0 == 100)%Q.
Proof.
  intros Hn. unfold porcentagem, PyFloat.fmul, PyFloat.truediv.
  assert (E1 : (inject_Z (n - 0) / inject_Z n == 1)%Q).
  { replace (n - 0) with n by lia. field.
    change 0%Q with (inject_Z 0). now rewrite inject_Z_injective. }
  assert (E2 : (PyFloat.round_float (inject_Z (n - 0) / inject_Z n) == 1)%Q).
  { eapply Qeq_trans; [|exact round_float_one].
    apply PyFloatFacts.round_float_comp; [lra | exact E1]. }
  assert (E3 : (PyFloat.round_float (inject_Z (n - 0) / inject_Z n) * 100 == 100)%Q).
  { rewrite E2. reflexivity. }
  eapply Qeq_trans; [|exact round_float_hundred].
  apply PyFloatFacts.round_float_comp; [lra | exact E3].
Qed.

Lemma format_1f_hundred x : (x == 100)%Q -> PyFloat.format_1f x = "100.0".
Proof.
  intros E. unfold PyFloat.format_1f, PyFloat.tenths.
  assert (Et : (Qabs x * 10 == inject_Z 1000)%Q).
  { rewrite Qabs_pos by lra. rewrite E. reflexivity. }
  rewrite (PyFloatFacts.round_half_even_comp _ _ Et), PyFloatFacts.round_half_even_Z.
  destruct (Qlt_le_dec x 0) as [H|H]; [exfalso; lra|].
  vm_compute. reflexivity.
Qed.

Lemma msg_baixado_done n : n <> 0 -> msg_baixado n 0 = "Baixado: 100.0%".
Proof.
  intros Hn. unfold msg_baixado. now rewrite (format_1f_hundred _ (porcentagem_done n Hn)).
Qed.

Lemma strictly_decreasing_cons a rs :
  strictly_decreasing (a :: rs) = true ->
  Forall (fun b => b < a) rs /\ strictly_decreasing rs = true.
Proof.
  revert a. induction rs as [|b rs IH]; intros a H.
  - split; [constructor | reflexivity].
  - cbn [strictly_decreasing] in H. apply andb_prop in H as [Hba Hrest].
    apply Z.ltb_lt in Hba. destruct (IH b Hrest) as [Hall Hd].
    split; [|exact Hrest]. constructor; [assumption|].
    eapply Forall_impl; [exact Hall|]. simpl. intros c Hc. lia.
Qed.

(** A function that grows as its argument falls turns a falling list into
    a rising one. *)
Lemma decreasing_map_sorted {B} (R : B -> B -> Prop) (f : Z -> B) n rs :
  (forall a b, b <= a -> a <= n -> R (f a) (f b)) ->
  strictly_decreasing rs = true ->
  forallb (fun r => r <=? n) rs = true ->
  StronglySorted R (map f rs).
Proof.
  intros Hf. induction rs as [|a rs IH]; intros Hd Hn; simpl; [constructor|].
  destruct (strictly_decreasing_cons a rs Hd) as [Hall Hd'].
  cbn [forallb] in Hn. apply andb_prop in Hn as [Han Hn']. apply Z.leb_le in Han.
  constructor; [now apply IH|].
  apply List.Forall_forall. intros y Hy. apply in_map_iff in Hy as (b & <- & Hb).
  rewrite List.Forall_forall in Hall. specialize (Hall b Hb). apply Hf; lia.
Qed.

Lemma last_map {A B} (f : A -> B) (xs : list A) x :
  last xs = Some x -> last (map f xs) = Some (f x).
Proof.
  induction xs as [|a [|b xs] IH]; simpl; intros H; [discriminate| |].
  - now inversion H.
  - apply IH. exact H.
Qed.

Lemma fold_deliver_some (cb : Callback) (f : Z -> string) rs st :
  fold_left (fun st r => deliver (Some cb) (f r) st) rs st
  = mkState (files st) (dirs st) (trace st ++ map (fun r => Report (f r)) rs).
Proof.
  revert st. induction rs as [|r rs IH]; intros st; simpl.
  - rewrite app_nil_r. now destruct st.
  - rewrite IH. simpl. now rewrite <- app_assoc.
Qed.

(** C5.  For a download of a stream of positive size whose chunk
    notifications carry [bytes_remaining] values that fall strictly, stay at
    or below the size, and end at 0, the progress hook delivers one message per
    notification, all computed against the same [filesize]; the percentages
    never go down, nor do the tenths printed, and the last message reads 100.0. *)
Theorem progress_never_goes_back (cb : Callback) s rs st :
  (forall told msg, cb told msg = None) ->
  0 < filesize s ->
  strictly_decreasing rs = true ->
  forallb (fun r => r <=? filesize s) rs = true ->
  last rs = Some 0 ->
  for_each (on_progress (Some cb) s) rs st
  = (Return tt,
     mkState (files st) (dirs st)
             (trace st ++ map (fun r => Report (msg_baixado (filesize s) r)) rs)) /\
  StronglySorted Qle (map (porcentagem (filesize s)) rs) /\
  StronglySorted Z.le (map (fun r => PyFloat.tenths (porcentagem (filesize s) r)) rs) /\
  last (map (msg_baixado (filesize s)) rs) = Some "Baixado: 100.0%".
Proof.
  intros Hcb Hn Hd Hle Hlast. apply quiet_some in Hcb.
  split; [|split; [|split]].
  - rewrite for_each_on_progress_quiet by (assumption || lia).
    now rewrite fold_deliver_some.
  - apply decreasing_map_sorted with (n := filesize s); try assumption.
    intros a b Hab Han. now apply porcentagem_mono.
  - apply decreasing_map_sorted with (n := filesize s); try assumption.
    intros a b Hab Han. destruct (porcentagem_mono (filesize s) a b Hn Hab Han).
    now apply tenths_mono.
  - rewrite (last_map _ _ _ Hlast). f_equal. apply msg_baixado_done. lia.
Qed.

(** C5, witness: a 4000-byte stream delivered in five chunks. *)
Lemma progress_never_goes_back_witness :
  for_each (on_progress (Some Sample.listener) Sample.s720) [4000; 3000; 1999; 1; 0] Sample.start
  = (Return tt,
     mkState ∅ ∅ [Report "Baixado: 0.0%"; Report "Baixado: 25.0%"; Report "Baixado: 50.0%";
                  Report "Baixado: 100.0%"; Report "Baixado: 100.0%"]) /\
  StronglySorted Qle (map (porcentagem 4000) [4000; 3000; 1999; 1; 0]) /\
  StronglySorted Z.le
    (map (fun r => PyFloat.tenths (porcentagem 4000 r)) [4000; 3000; 1999; 1; 0]) /\
  last (map (msg_baixado 4000) [4000; 3000; 1999; 1; 0]) = Some "Baixado: 100.0%".
Proof.
  assert (E :
    map (fun r => Report (msg_baixado (filesize Sample.s720) r)) [4000; 3000; 1999; 1; 0]
    = [Report "Baixado: 0.0%"; Report "Baixado: 25.0%"; Report "Baixado: 50.0%";
       Report "Baixado: 100.0%"; Report "Baixado: 100.0%"]) by (vm_compute; reflexivity).
  rewrite <- E.
  apply (progress_never_goes_back Sample.listener Sample.s720 [4000; 3000; 1999; 1; 0]
           Sample.start); reflexivity.
Defined.

(** * Further properties of [baixar_video] *)

(** X1.  Whatever exception the resolver raises while the video is
    resolved, [baixar_video] returns no path, the callback hears the connecting
    notice and then the one message of the [except] clause that matches the
    class of the exception, and nothing else has happened: no folder was
    created, no file written, no download started. *)
Theorem resolution_failure_is_classified env url pasta resolucao audio (cb : Callback) st e :
  (forall told msg, cb told msg = None) ->
  YouTube env url = Raised e \/
  (exists yt, YouTube env url = Return yt /\ video_info yt = Raised e) ->
  baixar_video env url pasta resolucao audio (Some cb) st
  = (Return None,
     mkState (files st) (dirs st)
             (trace st ++ [Report msg_conectando; Report (error_report e)])).
Proof.
  intros Hcb Hfail. apply quiet_some in Hcb.
  assert (Htry :
    baixar_video_try env url pasta resolucao audio (Some cb) st
    = (Raised e, deliver (Some cb) msg_conectando st)).
  { unfold baixar_video_try.
    destruct Hfail as [Hyt | (yt & Hyt & Hinfo)]; now repeat known_step. }
  unfold baixar_video, try_except. rewrite Htry.
  rewrite baixar_video_except_quiet by assumption.
  simpl. now rewrite <- app_assoc.
Qed.

(** X1, witness: a URL pytube does not recognise. *)
Lemma resolution_failure_is_classified_witness :
  baixar_video Sample.env "not a url" None None false (Some Sample.listener) Sample.start
  = (Return None, mkState ∅ ∅ [Report msg_conectando; Report msg_url_invalida]).
Proof.
  apply (resolution_failure_is_classified Sample.env "not a url" None None false
           Sample.listener Sample.start (RegexMatchError "regex_search: could not find match")).
  - reflexivity.
  - left. reflexivity.
Defined.

(** X2.  When [os.makedirs] raises on the destination folder,
    [baixar_video] stops there: it returns no path, what is said is the
    connecting notice, the video information and then the error, reaching
    the callback if there is one, no stream is listed or downloaded and no
    file is touched.  Of the filesystem only the folders change, by the
    parents [os.makedirs] had made before it failed, which stay. *)
Theorem folder_failure_stops_the_download
    env url pasta resolucao audio callback st yt info e :
  quiet callback ->
  YouTube env url = Return yt ->
  video_info yt = Return info ->
  makedirs_error env (destination env pasta) = Some e ->
  baixar_video env url pasta resolucao audio callback st
  = (Return None,
     mkState (files st)
             (list_to_set (makedirs_made env (destination env pasta)) ∪ dirs st)
             (trace st ++ heard callback [msg_conectando; info; error_report e])).
Proof.
  intros Hq Hyt Hinfo Hmk.
  assert (Htry :
    baixar_video_try env url pasta resolucao audio callback st
    = (Raised e,
       mkState (files st)
               (list_to_set (makedirs_made env (destination env pasta)) ∪ dirs st)
               (trace st ++ heard callback [msg_conectando; info]))).
  { unfold baixar_video_try.
    change (match pasta with Some p => p | None => getcwd env end) with (destination env pasta).
    repeat known_step.
    erewrite bind_raised by (apply makedirs_fails; exact Hmk).
    rewrite !deliver_heard. cbn [files dirs trace].
    rewrite <- app_assoc, <- heard_app. reflexivity. }
  unfold baixar_video, try_except. rewrite Htry.
  rewrite baixar_video_except_quiet by assumption.
  rewrite deliver_heard. cbn [files dirs trace].
  rewrite <- app_assoc, <- heard_app. reflexivity.
Qed.

(** X2, witness: a world where the folder cannot be made but one of its
    parents is. *)
Lemma folder_failure_stops_the_download_witness :
  baixar_video Faults.env_no_folder "ok" (Some "out/mnt/clips") None false
               (Some Sample.listener) Sample.start
  = (Return None,
     mkState ∅ (list_to_set ["out"] ∪ ∅)
             [Report msg_conectando; Report Faults.clip_info;
              Report (msg_inesperado Faults.read_only)]).
Proof.
  apply (folder_failure_stops_the_download Faults.env_no_folder "ok" (Some "out/mnt/clips")
           None false (Some Sample.listener) Sample.start Sample.clip Faults.clip_info
           Faults.read_only).
  - now apply quiet_some.
  - reflexivity.
  - reflexivity.
  - reflexivity.
Defined.

Lemma rename_fails env src dst e st :
  rename_error env src dst = Some e -> rename env src dst st = (Raised e, st).
Proof. intros H. unfold rename. now rewrite H. Qed.

(** X3.  When the rename of the audio file fails, [baixar_video] returns
    no path and reports the error, and the downloaded file is still there
    under the name the download gave it. *)
Theorem rename_failure_leaves_the_download
    env url pasta resolucao callback st yt info streams audio path data e :
  let dest := destination env pasta in
  let novo := fst (OsPath.splitext path) +:+ ".mp3" in
  quiet callback ->
  YouTube env url = Return yt ->
  video_info yt = Return info ->
  makedirs_error env dest = None ->
  yt_streams yt = Return streams ->
  first (filter_only_audio streams) = Some audio ->
  filesize audio <> 0 ->
  landed (transfer env audio dest) = Return (path, data) ->
  rename_error env path novo = Some e ->
  exists st',
    baixar_video env url pasta resolucao true callback st = (Return None, st') /\
    files st' = <[path := data]> (files st) /\
    downloads (trace st') = (downloads (trace st) ++ [(audio, dest)])%list /\
    (forall cb, callback = Some cb -> last (reports (trace st')) = Some (error_report e)).
Proof.
  intros dest novo Hq Hyt Hinfo Hmk Hss Haudio Hsize Hland Hren.
  unfold baixar_video, try_except. resolved_steps Hmk. repeat known_step.
  rewrite Haudio. cbn [download_on].
  match goal with |- context [bind (download env audio ?d ?h) _ ?s] =>
    destruct (download_ok env audio d callback s path data Hq Hsize Hland)
      as (st2 & Hrun & Hf & Hd & msgs & Ht)
  end.
  erewrite bind_return by exact Hrun. cbv beta.
  erewrite bind_raised by (apply rename_fails; exact Hren).
  rewrite baixar_video_except_quiet by assumption.
  eexists. split; [reflexivity|].
  rewrite deliver_files, downloads_deliver, Hf, Ht, downloads_app.
  cbn [downloads]. rewrite downloads_reports.
  repeat (rewrite downloads_deliver || rewrite deliver_files || cbn [trace files]).
  split; [reflexivity|]. split; [reflexivity|].
  intros cb ->. cbn [deliver trace]. rewrite reports_app. cbn [reports].
  apply last_snoc.
Qed.

(** X3, witness: a world where no file can be renamed. *)
Lemma rename_failure_leaves_the_download_witness :
  exists st',
    baixar_video Faults.env_no_rename "ok" (Some "out") None true (Some Sample.listener)
                 Sample.start
    = (Return None, st') /\
    files st' = <[ "out/Clip.mp4" := "payload" ]> (files Sample.start) /\
    downloads (trace st') = [(Sample.a128, "out")] /\
    (forall cb, Some Sample.listener = Some cb ->
                last (reports (trace st')) = Some (error_report Faults.denied)).
Proof.
  apply (rename_failure_leaves_the_download Faults.env_no_rename "ok" (Some "out") None
           (Some Sample.listener) Sample.start Sample.clip Faults.clip_info
           Sample.all_streams Sample.a128 "out/Clip.mp4" "payload" Faults.denied).
  - intros cb E told msg. inversion E. reflexivity.
  - reflexivity.
  - reflexivity.
  - reflexivity.
  - reflexivity.
  - reflexivity.
  - discriminate.
  - reflexivity.
  - reflexivity.
Defined.

(** The division in the progress hook comes before the callback is
    consulted: on a stream of size zero the first chunk ends the download,
    with or without a callback, and whatever the callback would do. *)
Lemma download_zero_size env s pasta callback st r rs :
  filesize s = 0 ->
  chunks (transfer env s pasta) = r :: rs ->
  exists fs,
    download env s pasta (on_progress callback) st
    = (Raised (OtherException "division by zero"),
       mkState fs (dirs st) (trace st ++ [Download s pasta])).
Proof.
  intros Hsize Hchunks.
  set (st1 := mkState (files st) (dirs st) (trace st ++ [Download s pasta])).
  destruct (leave_run (transfer env s pasta) 1 st1) as [fs Hleave].
  exists fs. unfold download. cbv zeta.
  erewrite bind_return by reflexivity. fold st1.
  rewrite Hchunks. cbn [feed].
  erewrite bind_raised; [reflexivity|].
  erewrite bind_raised; [reflexivity|].
  unfold try_except, on_progress. rewrite Hsize. cbn [Z.eqb raise].
  rewrite bind_run, Hleave. reflexivity.
Qed.

(** X4.  A stream that announces a size of zero and still delivers a chunk
    makes the audio download fail with a division by zero: [baixar_video]
    returns no path, although the transfer itself would have landed, and a
    callback hears [Erro inesperado: division by zero] as the last message.
    It fails in the same way when there is no callback. *)
Theorem zero_size_stream_fails env url pasta resolucao callback st yt info streams audio r rs :
  let dest := destination env pasta in
  quiet callback ->
  YouTube env url = Return yt ->
  video_info yt = Return info ->
  makedirs_error env dest = None ->
  yt_streams yt = Return streams ->
  first (filter_only_audio streams) = Some audio ->
  filesize audio = 0 ->
  chunks (transfer env audio dest) = r :: rs ->
  exists st',
    baixar_video env url pasta resolucao true callback st = (Return None, st') /\
    downloads (trace st') = (downloads (trace st) ++ [(audio, dest)])%list /\
    (forall cb, callback = Some cb ->
       last (reports (trace st')) = Some "Erro inesperado: division by zero").
Proof.
  intros dest Hq Hyt Hinfo Hmk Hss Haudio Hsize Hchunks.
  unfold baixar_video, try_except. resolved_steps Hmk. repeat known_step.
  rewrite Haudio. cbn [download_on].
  match goal with |- context [bind (download env audio ?d ?h) _ ?s] =>
    destruct (download_zero_size env audio d callback s r rs Hsize Hchunks) as [fs Hdl]
  end.
  erewrite bind_raised by exact Hdl.
  rewrite baixar_video_except_quiet by assumption.
  eexists. split; [reflexivity|].
  rewrite downloads_deliver. cbn [trace]. rewrite downloads_app. cbn [downloads].
  repeat (rewrite downloads_deliver || cbn [trace]).
  split; [reflexivity|].
  intros cb ->. cbn [deliver trace]. rewrite reports_app. cbn [reports].
  apply last_snoc.
Qed.

(** X4, witness: the video whose audio stream has size zero. *)
Lemma zero_size_stream_fails_witness :
  exists st',
    baixar_video Faults.env_empty "ok" (Some "out") None true (Some Sample.listener)
                 Sample.start
    = (Return None, st') /\
    downloads (trace st') = [(Faults.a0, "out")] /\
    (forall cb, Some Sample.listener = Some cb ->
       last (reports (trace st')) = Some "Erro inesperado: division by zero").
Proof.
  apply (zero_size_stream_fails Faults.env_empty "ok" (Some "out") None
           (Some Sample.listener) Sample.start
           Faults.clip_empty Faults.clip_info [Sample.s720; Faults.a0] Faults.a0 0 [0; 0]).
  - intros cb E told msg. inversion E. reflexivity.
  - reflexivity.
  - reflexivity.
  - reflexivity.
  - reflexivity.
  - reflexivity.
  - reflexivity.
  - reflexivity.
Defined.

(** Without a callback it fails in silence, and the part of the file
    that was written before the hook raised is left in the folder. *)
Example zero_size_stream_fails_silently :
  baixar_video Faults.env_empty "ok" (Some "out") None true None Sample.start
  = (Return None,
     mkState {[ "out/Clip.mp4" := "pa" ]} {[ "out" ]} [Download Faults.a0 "out"]).
Proof. vm_compute. reflexivity. Qed.

Example zero_size_stream_message :
  reports (trace (snd (baixar_video Faults.env_empty "ok" (Some "out") None true
                                    (Some Sample.listener) Sample.start)))
  = [ msg_conectando; Faults.clip_info; "Baixando apenas áudio...";
      "Erro inesperado: division by zero" ].
Proof. vm_compute. reflexivity. Qed.

(** X5.  When the request is for video, names a resolution that a
    progressive stream carries, and every step succeeds, [baixar_video] returns
    the very path the download wrote: the file is there with the downloaded
    bytes, no other file has changed, nothing is renamed, the one download
    is on the first progressive stream with that label, and the last message
    names the file.  The destination folder exists afterwards, and the
    folders are those there were, the destination, and the parents
    [os.makedirs] made for it. *)
Theorem video_download_returns_landed_path
    env url pasta r callback st yt info front s back path data :
  let dest := destination env pasta in
  let streams := (front ++ s :: back)%list in
  quiet callback ->
  r <> EmptyString ->
  YouTube env url = Return yt ->
  video_info yt = Return info ->
  makedirs_error env dest = None ->
  yt_streams yt = Return streams ->
  forallb labelled (filter_progressive streams) = true ->
  matches r s ->
  Forall (fun x => ~ matches r x) front ->
  filesize s <> 0 ->
  landed (transfer env s dest) = Return (path, data) ->
  exists st',
    baixar_video env url pasta (Some r) false callback st = (Return (Some path), st') /\
    files st' = <[path := data]> (files st) /\
    dest ∈ dirs st' /\
    dirs st' = {[dest]} ∪ (list_to_set (makedirs_made env dest) ∪ dirs st) /\
    downloads (trace st') = (downloads (trace st) ++ [(s, dest)])%list /\
    (forall cb, callback = Some cb ->
       last (reports (trace st'))
       = Some ("Vídeo baixado e salvo como " +:+ OsPath.basename path)).
Proof.
  intros dest streams Hq Hr Hyt Hinfo Hmk Hss Hl Hs Hfront Hsize Hland.
  assert (Hfirst : first (filter_progressive_resolution r streams) = Some s)
    by now apply first_match.
  pose proof (join_labelled ", " _ Hl) as Hjoin.
  assert (Htruthy : truthy (Some r) = true).
  { simpl. apply negb_true_iff. now apply String.eqb_neq. }
  unfold baixar_video, try_except. resolved_steps Hmk. repeat known_step.
  match goal with
  | |- context [bind (match callback with Some _ => ?a | None => ?b end) _ ?s0] =>
      assert (Hlist :
        match callback with Some _ => a | None => b end s0
        = (Return tt, deliver callback (msg_resolucoes streams) s0))
  end.
  { destruct callback as [cb|]; [|reflexivity]. repeat known_step. now apply notify_quiet. }
  erewrite bind_return by exact Hlist. cbv beta.
  rewrite Htruthy. cbn [py_str]. rewrite Hfirst.
  erewrite bind_return by reflexivity. cbv beta.
  match goal with
  | |- context [bind (match callback with Some _ => ?a | None => ?b end) _ ?s0] =>
      assert (Hsay :
        match callback with Some _ => a | None => b end s0
        = (Return tt, deliver callback (msg_baixando s) s0))
  end.
  { destruct callback as [cb|]; [now apply notify_quiet | reflexivity]. }
  erewrite bind_return by exact Hsay. cbv beta. cbn [download_on].
  match goal with |- context [bind (download env s ?d ?h) _ ?s0] =>
    destruct (download_ok env s d callback s0 path data Hq Hsize Hland)
      as (st2 & Hrun & Hf & Hd & msgs & Ht)
  end.
  erewrite bind_return by exact Hrun. cbv beta.
  erewrite bind_return by (now apply notify_quiet). cbn [ret].
  eexists. split; [reflexivity|].
  rewrite deliver_files, deliver_dirs, downloads_deliver, Hf, Hd, Ht, downloads_app.
  cbn [downloads]. rewrite downloads_reports.
  repeat (rewrite downloads_deliver || rewrite deliver_files || rewrite deliver_dirs
          || cbn [trace files dirs]).
  split; [reflexivity|].
  split; [now apply elem_of_union_l, elem_of_singleton|].
  split; [reflexivity|]. split; [reflexivity|].
  intros cb ->. cbn [deliver trace]. rewrite reports_app. cbn [reports].
  apply last_snoc.
Qed.

(** X5, witness: 360p of the sample video, into a folder whose parent is
    made on the way. *)
Lemma video_download_returns_landed_path_witness :
  exists st',
    baixar_video Faults.env_deep "ok" (Some "out/clips") (Some "360p") false
                 (Some Sample.listener) Sample.start
    = (Return (Some "out/clips/Clip.mp4"), st') /\
    files st' = <[ "out/clips/Clip.mp4" := "payload" ]> (files Sample.start) /\
    "out/clips" ∈ dirs st' /\
    dirs st' = {[ "out/clips" ]} ∪ (list_to_set ["out"] ∪ dirs Sample.start) /\
    downloads (trace st') = [(Sample.s360, "out/clips")] /\
    (forall cb, Some Sample.listener = Some cb ->
       last (reports (trace st')) = Some "Vídeo baixado e salvo como Clip.mp4").
Proof.
  apply (video_download_returns_landed_path Faults.env_deep "ok" (Some "out/clips") "360p"
           (Some Sample.listener) Sample.start Sample.clip Faults.clip_info
           [Sample.s1080; Sample.s720; Sample.a128] Sample.s360 [Sample.a160]
           "out/clips/Clip.mp4" "payload").
  - now apply quiet_some.
  - discriminate.
  - reflexivity.
  - reflexivity.
  - reflexivity.
  - reflexivity.
  - reflexivity.
  - split; reflexivity.
  - repeat constructor; intros [Hp Hl]; discriminate.
  - discriminate.
  - reflexivity.
Defined.

(** X6.  For a positive size and a remaining count between zero and the
    size, the percentage the progress hook computes lies between 0 and 100,
    and so does what it prints: between 0.0 and 100.0. *)
Theorem percentage_within_bounds n r :
  0 < n -> 0 <= r <= n ->
  (0 <= porcentagem n r <= 100)%Q /\
  0 <= PyFloat.tenths (porcentagem n r) <= 1000.
Proof.
  intros Hn [Hr0 Hrn].
  destruct (porcentagem_mono n r 0 Hn Hr0 Hrn) as [Hlo Hhi].
  assert (Hdone : (porcentagem n 0 == 100)%Q) by (apply porcentagem_done; lia).
  assert (Hle : (porcentagem n r <= 100)%Q) by (rewrite <- Hdone; exact Hhi).
  split; [split; assumption|].
  split.
  - replace 0 with (PyFloat.tenths 0) by (vm_compute; reflexivity).
    apply tenths_mono; [apply Qle_refl | assumption].
  - replace 1000 with (PyFloat.tenths 100) by (vm_compute; reflexivity).
    now apply tenths_mono.
Qed.

(** X6, witness: one byte of three still to come. *)
Lemma percentage_within_bounds_witness :
  (0 <= porcentagem 3 1 <= 100)%Q /\ 0 <= PyFloat.tenths (porcentagem 3 1) <= 1000.
Proof. apply (percentage_within_bounds 3 1); lia. Defined.

(** ** Reasoning with assertions *)

Lemma hoare_ret {A} (P : State -> Prop) (a : A) (Q : A -> State -> Prop) E :
  (forall st, P st -> Q a st) -> hoare P (ret a) Q E.
Proof. intros H st HP. now apply H. Qed.

Lemma hoare_raise {A} (P : State -> Prop) e (Q : A -> State -> Prop) (E : State -> Prop) :
  (forall st, P st -> E st) -> hoare P (raise e) Q E.
Proof. intros H st HP. now apply H. Qed.

Lemma hoare_bind {A B} (P : State -> Prop) (m : M A) (f : A -> M B) R Q E :
  hoare P m (fun _ => R) E ->
  (forall a, hoare R (f a) Q E) ->
  hoare P (bind m f) Q E.
Proof.
  intros Hm Hf st HP. unfold bind. specialize (Hm st HP).
  destruct (m st) as [[a|e] st1]; [|assumption]. now apply Hf.
Qed.

Lemma hoare_try_except {A} (P : State -> Prop) (m : M A) h Q R E :
  hoare P m Q R ->
  (forall e, hoare R (h e) Q E) ->
  hoare P (try_except m h) Q E.
Proof.
  intros Hm Hh st HP. unfold try_except. specialize (Hm st HP).
  destruct (m st) as [[a|e] st1]; [assumption|]. now apply Hh.
Qed.

Lemma hoare_eval {A} (P : State -> Prop) (o : Outcome A) (E : State -> Prop) :
  (forall st, P st -> E st) -> hoare P (eval o) (fun _ => P) E.
Proof. intros H st HP. destruct o; simpl; auto. Qed.

Lemma hoare_notify (P : State -> Prop) callback msg (E : State -> Prop) :
  report_stable P -> (forall st, P st -> E st) ->
  hoare P (notify callback msg) (fun _ => P) E.
Proof.
  intros Hs H st HP. destruct callback as [cb|]; simpl; [|assumption].
  destruct (cb _ _); simpl; auto.
Qed.

Lemma hoare_for_each {A} (P : State -> Prop) (f : A -> M unit) xs (E : State -> Prop) :
  (forall st, P st -> E st) ->
  (forall x, hoare P (f x) (fun _ => P) E) ->
  hoare P (for_each f xs) (fun _ => P) E.
Proof.
  intros H Hf. induction xs as [|x xs IH]; simpl.
  - now apply hoare_ret.
  - eapply hoare_bind; [apply Hf | intros _; exact IH].
Qed.

Lemma hoare_on_progress (P : State -> Prop) callback s r (E : State -> Prop) :
  report_stable P -> (forall st, P st -> E st) ->
  hoare P (on_progress callback s r) (fun _ => P) E.
Proof.
  intros Hs H. unfold on_progress.
  destruct (filesize s =? 0); [now apply hoare_raise | now apply hoare_notify].
Qed.

(** *** The phases of [baixar_video]

    [Before] holds until [os.makedirs] is called, [Refused] when it has
    failed, [Ready] from the moment the folder is made until the download
    starts, [Started] afterwards. *)

Section Phases.

Variable env : Env.
Variable dest : string.
Variables Before Refused Ready Started : State -> Prop.

Hypothesis Before_report : report_stable Before.
Hypothesis Refused_report : report_stable Refused.
Hypothesis Ready_report : report_stable Ready.
Hypothesis Started_report : report_stable Started.
Hypothesis Before_refused :
  forall st, Before st ->
    Refused (mkState (files st) (list_to_set (makedirs_made env dest) ∪ dirs st) (trace st)).
Hypothesis Before_folder :
  forall st, Before st ->
    Ready (mkState (files st) ({[dest]} ∪ (list_to_set (makedirs_made env dest) ∪ dirs st))
                   (trace st)).
Hypothesis Ready_download :
  forall st s, Ready st -> Started (mkState (files st) (dirs st) (trace st ++ [Download s dest])).
Hypothesis Started_files :
  forall st fs, Started st -> Started (mkState fs (dirs st) (trace st)).

Local Abbreviation Somewhere := (somewhere Before Refused Ready Started).

Ltac inside := intros; unfold somewhere; tauto.

Lemma Somewhere_report : report_stable Somewhere.
Proof.
  intros st msg [H|[H|[H|H]]]; unfold somewhere; auto.
Qed.

Lemma hoare_makedirs : hoare Before (makedirs env dest) (fun _ => Ready) Somewhere.
Proof.
  intros st H. unfold makedirs.
  destruct (makedirs_error env dest).
  - right; left. now apply Before_refused.
  - now apply Before_folder.
Qed.

Lemma hoare_rename a b : hoare Started (rename env a b) (fun _ => Started) Somewhere.
Proof.
  intros st H. unfold rename.
  destruct (rename_error env a b); [inside|].
  destruct (files st !! a); [now apply Started_files | inside].
Qed.

Lemma hoare_leave t k : hoare Started (leave t k) (fun _ => Started) Somewhere.
Proof.
  intros st H. unfold leave.
  destruct (partial t k) as [[path data]|]; [now apply Started_files | assumption].
Qed.

Lemma hoare_feed t callback s rs : forall k,
  hoare Started (feed t (on_progress callback s) k rs) (fun _ => Started) Somewhere.
Proof.
  induction rs as [|r rs IH]; intros k; simpl.
  - apply hoare_ret. auto.
  - apply hoare_bind with (R := Started); [|intros _; apply IH].
    apply hoare_try_except with (R := Started).
    + intros st H.
      pose proof (hoare_on_progress Started callback s r Started Started_report
                    (fun _ H => H) st H) as Hrun.
      destruct (on_progress callback s r st) as [[[]|e] st1]; exact Hrun.
    + intros e. apply hoare_bind with (R := Started); [apply hoare_leave|intros _].
      apply hoare_raise. inside.
Qed.

Lemma hoare_download_on x callback :
  hoare Ready (download_on env x dest (on_progress callback)) (fun _ => Started) Somewhere.
Proof.
  destruct x as [s|]; simpl.
  - unfold download. cbv zeta.
    eapply hoare_bind with (R := Started).
    { intros st H. simpl. now apply Ready_download. }
    intros _. eapply hoare_bind with (R := Started); [apply hoare_feed|].
    intros _. destruct (landed (transfer env s dest)) as [[path data]|e].
    + intros st H. simpl. now apply Started_files.
    + apply hoare_bind with (R := Started); [apply hoare_leave|intros _].
      apply hoare_raise. inside.
  - apply hoare_raise. inside.
Qed.

Ltac phase_primitive :=
  first
    [ apply hoare_notify; [assumption | inside]
    | apply hoare_eval; inside
    | apply hoare_makedirs
    | apply hoare_download_on
    | apply hoare_rename
    | apply hoare_ret; intros; eassumption
    | apply hoare_raise; inside ].

Ltac phase_cases :=
  repeat match goal with
         | |- hoare _ (if ?b then _ else _) _ _ => destruct b
         | |- hoare _ (match ?x with _ => _ end) _ _ => destruct x
         end.

(** The next step of a sequence leaves the run in [X]. *)
Ltac next_in X :=
  apply hoare_bind with (R := X);
  [ phase_cases;
    solve [ phase_primitive
          | apply hoare_bind with (R := X); [phase_primitive | intros ?; phase_primitive] ]
  | intros ? ].

Lemma hoare_baixar_video_try url pasta resolucao audio callback :
  dest = destination env pasta ->
  hoare Before (baixar_video_try env url pasta resolucao audio callback)
        (fun _ => Started) Somewhere.
Proof.
  intros Hdest. unfold baixar_video_try.
  change (match pasta with Some p => p | None => getcwd env end) with (destination env pasta).
  rewrite <- Hdest.
  do 4 next_in Before. next_in Ready.
  destruct audio.
  - do 2 next_in Ready. do 3 next_in Started. phase_primitive.
  - do 4 next_in Ready. do 2 next_in Started. phase_primitive.
Qed.

Lemma hoare_baixar_video url pasta resolucao audio callback :
  dest = destination env pasta ->
  hoare Before (baixar_video env url pasta resolucao audio callback)
        (fun path st => match path with Some _ => Started st | None => Somewhere st end)
        Somewhere.
Proof.
  intros Hdest. unfold baixar_video.
  eapply hoare_try_except.
  - intros st H. pose proof (hoare_baixar_video_try url pasta resolucao audio callback Hdest st H) as Hrun.
    pose proof (baixar_video_try_yields_path env url pasta resolucao audio callback st) as Hpath.
    destruct (baixar_video_try env url pasta resolucao audio callback st) as [[v|e] st1].
    + destruct (Hpath v st1 eq_refl) as [p ->]. exact Hrun.
    + exact Hrun.
  - intros e. unfold baixar_video_except.
    eapply hoare_bind with (R := Somewhere).
    + destruct e; apply hoare_notify; try apply Somewhere_report; auto.
    + intros _. apply hoare_ret. auto.
Qed.

End Phases.

Lemma downloads_snoc_report t msg : downloads (t ++ [Report msg]) = downloads t.
Proof. rewrite downloads_app. simpl. apply app_nil_r. Qed.

Lemma folders_grow_l (made ds : gset string) : ds ⊆ made ∪ ds.
Proof. set_solver. Qed.

Lemma folders_grow (dest : string) (made ds : gset string) : ds ⊆ {[dest]} ∪ (made ∪ ds).
Proof. set_solver. Qed.

Lemma folder_there (dest : string) (ds : gset string) : dest ∈ {[dest]} ∪ ds.
Proof. set_solver. Qed.

(** X7.  Whatever the collaborators answer and whatever the callback does,
    raising included, one call of [baixar_video] leaves the world in one of
    four conditions: untouched; with no file written, no download started
    and the folders grown by the parents a failed [os.makedirs] had made;
    with no file written, no download started and the destination folder
    made, together with the parents [os.makedirs] made for it; or with those
    folders made and exactly one download started, into the destination.  So
    it never starts a second download, never writes a file without having
    started a download, never removes a folder and makes none but through
    the one call of [os.makedirs] on the destination.  When it returns a
    path it is in the last condition, and the destination folder exists. *)
Theorem baixar_video_footprint env url pasta resolucao audio callback st :
  Footprint env (destination env pasta) st
            (snd (baixar_video env url pasta resolucao audio callback st)) /\
  dirs st ⊆ dirs (snd (baixar_video env url pasta resolucao audio callback st)) /\
  forall path,
    fst (baixar_video env url pasta resolucao audio callback st) = Return (Some path) ->
    destination env pasta ∈ dirs (snd (baixar_video env url pasta resolucao audio callback st)) /\
    exists s,
      downloads (trace (snd (baixar_video env url pasta resolucao audio callback st)))
      = (downloads (trace st) ++ [(s, destination env pasta)])%list.
Proof.
  set (dest := destination env pasta).
  set (made := list_to_set (makedirs_made env dest) : gset string).
  set (Before := fun x : State =>
         files x = files st /\ dirs x = dirs st /\
         downloads (trace x) = downloads (trace st)).
  set (Refused := fun x : State =>
         files x = files st /\ dirs x = made ∪ dirs st /\
         downloads (trace x) = downloads (trace st)).
  set (Ready := fun x : State =>
         files x = files st /\ dirs x = {[dest]} ∪ (made ∪ dirs st) /\
         downloads (trace x) = downloads (trace st)).
  set (Started := fun x : State =>
         exists s, dirs x = {[dest]} ∪ (made ∪ dirs st) /\
                   downloads (trace x) = (downloads (trace st) ++ [(s, dest)])%list).
  assert (Hrun : hoare Before (baixar_video env url pasta resolucao audio callback)
            (fun path x => match path with
                           | Some _ => Started x
                           | None => somewhere Before Refused Ready Started x
                           end)
            (somewhere Before Refused Ready Started)).
  { apply hoare_baixar_video with (dest := dest); try reflexivity.
    - intros x msg (Hf & Hd & Hl). unfold Before. simpl. now rewrite downloads_snoc_report.
    - intros x msg (Hf & Hd & Hl). unfold Refused. simpl. now rewrite downloads_snoc_report.
    - intros x msg (Hf & Hd & Hl). unfold Ready. simpl. now rewrite downloads_snoc_report.
    - intros x msg (s & Hd & Hl). exists s. simpl. now rewrite downloads_snoc_report.
    - intros x (Hf & Hd & Hl). unfold Refused. simpl. now rewrite Hd.
    - intros x (Hf & Hd & Hl). unfold Ready. simpl. now rewrite Hd.
    - intros x s (Hf & Hd & Hl). exists s. simpl. rewrite downloads_app, Hl. now split.
    - intros x fs (s & Hd & Hl). now exists s. }
  specialize (Hrun st (conj eq_refl (conj eq_refl eq_refl))).
  assert (Hfoot : forall x, somewhere Before Refused Ready Started x ->
                            Footprint env dest st x /\ dirs st ⊆ dirs x).
  { intros x [(Hf & Hd & Hl) | [(Hf & Hd & Hl) | [(Hf & Hd & Hl) | (s & Hd & Hl)]]].
    - split; [now apply nothing_done | now rewrite Hd].
    - split; [now apply folder_refused | rewrite Hd; apply folders_grow_l].
    - split; [now apply folder_made | rewrite Hd; apply folders_grow].
    - split; [now apply download_started with (s := s) | rewrite Hd; apply folders_grow]. }
  destruct (baixar_video env url pasta resolucao audio callback st) as [[[p|]|e] x]; simpl.
  - destruct Hrun as (s & Hd & Hl).
    split; [now apply download_started with (s := s)|].
    split; [rewrite Hd; apply folders_grow|].
    intros path _. split; [rewrite Hd; apply folder_there | now exists s].
  - destruct (Hfoot x Hrun) as [H1 H2]. split; [assumption|]. split; [assumption|discriminate].
  - destruct (Hfoot x Hrun) as [H1 H2]. split; [assumption|]. split; [assumption|discriminate].
Qed.

(** X8.  [obter_resolucoes] only asks and talks: whatever the
    collaborators answer and whatever the callback does, it writes no file,
    makes no folder and starts no download. *)
Theorem obter_resolucoes_touches_nothing env url callback st :
  files (snd (obter_resolucoes env url callback st)) = files st /\
  dirs (snd (obter_resolucoes env url callback st)) = dirs st /\
  downloads (trace (snd (obter_resolucoes env url callback st))) = downloads (trace st).
Proof.
  set (Same := fun x : State =>
         files x = files st /\ dirs x = dirs st /\
         downloads (trace x) = downloads (trace st)).
  assert (Hstable : report_stable Same).
  { intros x msg (Hf & Hd & Hl). unfold Same. simpl. now rewrite downloads_snoc_report. }
  assert (Hrun : hoare Same (obter_resolucoes env url callback) (fun _ => Same) Same).
  { unfold obter_resolucoes.
    apply hoare_try_except with (R := Same).
    - apply hoare_bind with (R := Same); [now apply hoare_notify | intros _].
      apply hoare_bind with (R := Same); [now apply hoare_eval | intros yt].
      apply hoare_bind with (R := Same); [now apply hoare_eval | intros streams].
      apply hoare_bind with (R := Same); [|intros _; now apply hoare_ret].
      destruct callback as [cb|]; [|now apply hoare_ret].
      apply hoare_bind with (R := Same); [now apply hoare_eval | intros title].
      now apply hoare_notify.
    - intros e. apply hoare_bind with (R := Same); [now apply hoare_notify | intros _].
      now apply hoare_ret. }
  specialize (Hrun st (conj eq_refl (conj eq_refl eq_refl))).
  destruct (obter_resolucoes env url callback st) as [[labels|e] x]; exact Hrun.
Qed.

(** * The argument loop of [main] *)

Lemma skipn_nth (argv : list string) i :
  (i < List.length argv)%nat ->
  skipn i argv = nth i argv EmptyString :: skipn (S i) argv.
Proof.
  revert i. induction argv as [|a argv IH]; intros i H; simpl in H; [lia|].
  destruct i as [|i]; [reflexivity|]. simpl. apply IH. lia.
Qed.

Lemma skipn_all_nil (argv : list string) i :
  (List.length argv <= i)%nat -> skipn i argv = [].
Proof.
  revert i. induction argv as [|a argv IH]; intros i H; destruct i; simpl in *;
    try reflexivity; try lia.
  apply IH. lia.
Qed.

(** The loop from index [i] on, against the tail of the arguments from
    [i] on. *)
Lemma main_loop_pasta argv n : forall i a,
  (i + n = List.length argv)%nat ->
  pasta_destino (fold_left (main_loop_body argv) (seq i n) a)
  = match pasta_destino a with
    | Some p => Some p
    | None => List.head (List.filter plain (skipn i argv))
    end.
Proof.
  induction n as [|n IH]; intros i a Hlen; simpl.
  - rewrite skipn_all_nil by lia. now destruct (pasta_destino a).
  - rewrite IH by lia. rewrite (skipn_nth argv i) by lia.
    unfold main_loop_body. cbn [List.filter].
    set (arg := nth i argv EmptyString).
    assert (Hplain : plain arg = negb (String.prefix "--" arg)) by reflexivity.
    destruct (String.eqb_spec arg "--audio") as [E|N].
    { rewrite Hplain, E. reflexivity. }
    destruct (String.eqb_spec arg "--resolucao") as [E|N'].
    { rewrite Hplain, E. cbn [String.prefix negb andb].
      destruct (i + 1 <? List.length argv)%nat; reflexivity. }
    cbn [andb]. rewrite Hplain.
    destruct (String.prefix "--" arg); cbn [negb andb]; [reflexivity|].
    destruct (pasta_destino a) as [p|] eqn:Hp; cbn [is_Some_bool negb].
    + now rewrite Hp.
    + reflexivity.
Qed.

(** X9.  The destination folder [main] passes on is the first argument
    after the URL that does not start with two dashes, whatever stands before
    it, the label of [--resolucao] included; there is none when every argument
    after the URL starts with two dashes. *)
Theorem main_args_pasta_destino argv :
  pasta_destino (main_args argv) = List.head (List.filter plain (skipn 2 argv)).
Proof.
  unfold main_args.
  destruct (le_lt_dec 2 (List.length argv)) as [H|H].
  - rewrite main_loop_pasta by lia. reflexivity.
  - replace (List.length argv - 2)%nat with 0%nat by lia.
    rewrite skipn_all_nil by lia. reflexivity.
Qed.

Lemma main_loop_flag argv n : forall i a,
  (i + n = List.length argv)%nat ->
  apenas_audio (fold_left (main_loop_body argv) (seq i n) a)
  = apenas_audio a || existsb (fun arg => String.eqb arg "--audio") (skipn i argv).
Proof.
  induction n as [|n IH]; intros i a Hlen; simpl.
  - rewrite skipn_all_nil by lia. simpl. now rewrite orb_false_r.
  - rewrite IH by lia. rewrite (skipn_nth argv i) by lia.
    unfold main_loop_body. cbn [existsb].
    destruct (String.eqb (nth i argv EmptyString) "--audio"); cbn [apenas_audio orb].
    + now rewrite orb_true_r.
    + destruct (_ && _); cbn [apenas_audio]; [reflexivity|].
      destruct (_ && _); reflexivity.
Qed.

(** X10.  [main] asks for audio only exactly when one of the arguments
    after the URL is [--audio], wherever it stands, also where it is read as
    the label of [--resolucao]. *)
Theorem main_args_apenas_audio argv :
  apenas_audio (main_args argv)
  = existsb (fun arg => String.eqb arg "--audio") (skipn 2 argv).
Proof.
  unfold main_args.
  destruct (le_lt_dec 2 (List.length argv)) as [H|H].
  - rewrite main_loop_flag by lia. reflexivity.
  - replace (List.length argv - 2)%nat with 0%nat by lia.
    rewrite skipn_all_nil by lia. reflexivity.
Qed.

Lemma last_cons_or {A} (x : A) (l : list A) :
  last (x :: l) = match last l with Some y => Some y | None => Some x end.
Proof. apply last_cons. Qed.

Lemma followers_cons flag a (rest : list string) :
  followers flag (a :: rest)
  = match rest with
    | b :: _ => if String.eqb a flag then b :: followers flag rest else followers flag rest
    | [] => []
    end.
Proof. now destruct rest. Qed.

Lemma main_loop_resolucao argv n : forall i a,
  (i + n = List.length argv)%nat ->
  resolucao (fold_left (main_loop_body argv) (seq i n) a)
  = match last (followers "--resolucao" (skipn i argv)) with
    | Some l => Some l
    | None => resolucao a
    end.
Proof.
  induction n as [|n IH]; intros i a Hlen; simpl.
  - rewrite skipn_all_nil by lia. reflexivity.
  - rewrite IH by lia. rewrite (skipn_nth argv i) by lia.
    rewrite followers_cons. unfold main_loop_body.
    set (arg := nth i argv EmptyString).
    destruct (Nat.ltb_spec (i + 1) (List.length argv)) as [Hlt|Hge].
    + assert (Hrest : skipn (S i) argv = nth (i + 1) argv EmptyString :: skipn (S (S i)) argv).
      { replace (i + 1)%nat with (S i) by lia. apply skipn_nth. lia. }
      set (rest := skipn (S i) argv) in *.
      rewrite Hrest at 2. cbv match.
      destruct (String.eqb_spec arg "--audio") as [E|N].
      { rewrite E. reflexivity. }
      destruct (String.eqb arg "--resolucao"); cbn [andb].
      * cbn [resolucao]. rewrite last_cons_or.
        now destruct (last (followers "--resolucao" rest)).
      * destruct (_ && _); reflexivity.
    + rewrite (skipn_all_nil argv (S i)) by lia. cbn [followers last].
      destruct (String.eqb arg "--audio"); [reflexivity|].
      rewrite andb_false_r. destruct (_ && _); reflexivity.
Qed.

(** X11.  The resolution [main] passes on is the token that follows the
    last [--resolucao] among the arguments after the URL; a [--resolucao] that
    is the last argument has no label and is passed over, and with no labelled
    [--resolucao] the resolution is [None]. *)
Theorem main_args_resolucao argv :
  resolucao (main_args argv) = last (followers "--resolucao" (skipn 2 argv)).
Proof.
  unfold main_args.
  destruct (le_lt_dec 2 (List.length argv)) as [H|H].
  - rewrite main_loop_resolucao by lia.
    now destruct (last (followers "--resolucao" (skipn 2 argv))).
  - replace (List.length argv - 2)%nat with 0%nat by lia.
    rewrite skipn_all_nil by lia. reflexivity.
Qed.

Example two_resolucoes :
  main_args ["prog"; "url"; "--resolucao"; "360p"; "--resolucao"; "720p"; "--resolucao"]
  = mkArgs (Some "360p") (Some "720p") false.
Proof. reflexivity. Qed.

Example audio_as_label :
  main_args ["prog"; "url"; "--resolucao"; "--audio"]
  = mkArgs None (Some "--audio") true.
Proof. reflexivity. Qed.

(** ** The window *)

Lemma quiet_log : quiet (Some log_widget).
Proof. now apply quiet_some. Qed.

Lemma add_log_run msg st :
  add_log msg st = (Return tt, deliver (Some log_widget) msg st).
Proof. reflexivity. Qed.

Lemma obter_resolucoes_returns env url callback st :
  quiet callback ->
  exists labels st', obter_resolucoes env url callback st = (Return labels, st').
Proof.
  intros Hq. unfold obter_resolucoes, try_except.
  match goal with |- context [match ?m st with _ => _ end] => destruct (m st) as [[v|e] st1] end.
  - now eexists _, _.
  - erewrite bind_return by (now apply notify_quiet). now eexists _, _.
Qed.

Lemma baixar_video_returns env url pasta resolucao audio callback st :
  quiet callback ->
  exists path st', baixar_video env url pasta resolucao audio callback st = (Return path, st').
Proof.
  intros Hq. unfold baixar_video, try_except.
  destruct (baixar_video_try env url pasta resolucao audio callback st) as [[v|e] st1].
  - now eexists _, _.
  - rewrite baixar_video_except_quiet by assumption. now eexists _, _.
Qed.

Lemma eqb_empty_false s : s <> EmptyString -> String.eqb s EmptyString = false.
Proof. intros H. now apply String.eqb_neq. Qed.

Lemma idle_round_trip t t' w :
  idle w ->
  set_busy tk_normal false
    (set_tasks [] (hand_over t' (set_tasks [] (hand_over t (set_busy tk_disabled true w))))) = w.
Proof.
  destruct w. unfold idle, set_busy, set_tasks, hand_over. simpl.
  intros (-> & -> & -> & ->). reflexivity.
Qed.

Lemma steps_cons env strip i rest w st w1 st1 :
  step env strip i w st = (Return w1, st1) ->
  steps env strip (i :: rest) w st = steps env strip rest w1 st1.
Proof. intros H. simpl. now rewrite (bind_return _ _ _ _ _ H). Qed.

Lemma verificar_video_run strip w st :
  strip (url_entry w) <> EmptyString ->
  verificar_video strip w st
  = (Return (hand_over (thread_verificar (strip (url_entry w))) (set_busy tk_disabled true w)),
     deliver (Some log_widget) "Verificando vídeo..." st).
Proof.
  intros Hurl. unfold verificar_video. now rewrite (eqb_empty_false _ Hurl).
Qed.

Lemma verificar_video_blank strip w st :
  strip (url_entry w) = EmptyString ->
  verificar_video strip w st = (Return (show erro_url w), st).
Proof. intros Hurl. unfold verificar_video. now rewrite Hurl. Qed.

Lemma iniciar_download_run strip w st :
  strip (url_entry w) <> EmptyString ->
  destino_var w <> EmptyString ->
  destino_var w ∈ dirs st ->
  iniciar_download strip w st
  = (Return (hand_over (thread_download (strip (url_entry w)) (destino_var w) (asked w)
                                        (apenas_audio_var w))
                       (set_busy tk_disabled true w)),
     deliver (Some log_widget) "Iniciando download..." st).
Proof.
  intros Hurl Hne Hdir. unfold iniciar_download.
  rewrite (eqb_empty_false _ Hurl), bind_run. unfold isdir.
  rewrite (eqb_empty_false _ Hne), bool_decide_true by assumption.
  reflexivity.
Qed.

Lemma iniciar_download_refused strip w st :
  strip (url_entry w) = EmptyString \/ destino_var w = EmptyString \/ destino_var w ∉ dirs st ->
  exists d, iniciar_download strip w st = (Return (show d w), st).
Proof.
  intros H. unfold iniciar_download.
  destruct (String.eqb (strip (url_entry w)) EmptyString) eqn:Hu; [now eexists|].
  rewrite bind_run. unfold isdir.
  destruct H as [H|[H|H]].
  - rewrite H in Hu. discriminate.
  - rewrite H. now eexists.
  - rewrite bool_decide_false by assumption. rewrite orb_true_r. now eexists.
Qed.

Lemma work_run env strip t rest w :
  tasks w = t :: rest -> step env strip work w = run_task env t (set_tasks rest w).
Proof. intros H. simpl. now rewrite H. Qed.

(** X12.  Pressing "Verificar" on an idle window whose URL is not blank,
    and letting the thread and the call it schedules run, brings the window
    back exactly as it was, but for the resolutions offered: these are
    replaced, by "Melhor disponível" followed by what [obter_resolucoes]
    returned, only when that list is not empty, and only then is the success
    line logged.  In between, the log got "Verificando vídeo..." and what
    [obter_resolucoes] reported. *)
Theorem verificar_round_trip env strip w st :
  idle w ->
  strip (url_entry w) <> EmptyString ->
  exists labels st2,
    obter_resolucoes env (strip (url_entry w)) (Some log_widget)
                     (deliver (Some log_widget) "Verificando vídeo..." st)
    = (Return labels, st2) /\
    steps env strip [press_verificar; work; work] w st
    = match labels with
      | [] => (Return w, st2)
      | _ :: _ =>
          (Return (set_combo_values (Some melhor :: labels) w),
           deliver (Some log_widget) "Vídeo verificado com sucesso!" st2)
      end.
Proof.
  intros Hidle Hurl.
  destruct (obter_resolucoes_returns env (strip (url_entry w)) (Some log_widget)
              (deliver (Some log_widget) "Verificando vídeo..." st) quiet_log)
    as (labels & st2 & Hrun).
  exists labels, st2. split; [exact Hrun|].
  pose proof Hidle as (Ht & Hv & Hd & Hb).
  erewrite steps_cons; cycle 1.
  { simpl. rewrite Hv. now apply verificar_video_run. }
  erewrite steps_cons; cycle 1.
  { erewrite work_run by (simpl; rewrite Ht; reflexivity).
    simpl. unfold _verificar_thread. erewrite bind_return by exact Hrun. reflexivity. }
  cbn [steps]. rewrite bind_run.
  erewrite work_run by reflexivity. unfold run_task, _atualizar_apos_verificacao.
  rewrite idle_round_trip by assumption.
  destruct labels; reflexivity.
Qed.

(** X12, witness: the sample window, the sample strip and a world where
    the video is private. *)
Lemma verificar_round_trip_witness :
  exists labels st2,
    obter_resolucoes env_private (sample_strip (url_entry typed)) (Some log_widget)
                     (deliver (Some log_widget) "Verificando vídeo..." at_home)
    = (Return labels, st2) /\
    steps env_private sample_strip [press_verificar; work; work] typed at_home
    = match labels with
      | [] => (Return typed, st2)
      | _ :: _ =>
          (Return (set_combo_values (Some melhor :: labels) typed),
           deliver (Some log_widget) "Vídeo verificado com sucesso!" st2)
      end.
Proof.
  apply (verificar_round_trip env_private sample_strip typed at_home).
  - repeat split.
  - vm_compute. discriminate.
Defined.

(** X13.  Pressing "Baixar Vídeo" on an idle window with a URL that is not
    blank and a destination that is an existing folder, and letting the
    thread and the call it schedules run, calls [baixar_video] once, with the
    stripped URL, the folder, the audio box, and the chosen resolution unless
    that is "Melhor disponível" or the audio box is ticked; and whatever
    [baixar_video] returns, a path or none, the window ends as it was with
    one more message box, the one that says the download succeeded, after
    the log line "Download concluído!". *)
Theorem download_always_announces_success env strip w st :
  idle w ->
  strip (url_entry w) <> EmptyString ->
  destino_var w <> EmptyString ->
  destino_var w ∈ dirs st ->
  exists path st2,
    baixar_video env (strip (url_entry w)) (Some (destino_var w)) (asked w)
                 (apenas_audio_var w) (Some log_widget)
                 (deliver (Some log_widget) "Iniciando download..." st)
    = (Return path, st2) /\
    steps env strip [press_download; work; work] w st
    = (Return (show sucesso w), deliver (Some log_widget) "Download concluído!" st2).
Proof.
  intros Hidle Hurl Hne Hdir.
  destruct (baixar_video_returns env (strip (url_entry w)) (Some (destino_var w)) (asked w)
              (apenas_audio_var w) (Some log_widget)
              (deliver (Some log_widget) "Iniciando download..." st) quiet_log)
    as (path & st2 & Hrun).
  exists path, st2. split; [exact Hrun|].
  pose proof Hidle as (Ht & Hv & Hd & Hb).
  erewrite steps_cons; cycle 1.
  { simpl. rewrite Hd. now apply iniciar_download_run. }
  erewrite steps_cons; cycle 1.
  { erewrite work_run by (simpl; rewrite Ht; reflexivity).
    simpl. unfold _download_thread. erewrite bind_return by exact Hrun. reflexivity. }
  cbn [steps]. rewrite bind_run.
  erewrite work_run by reflexivity. unfold run_task, _finalizar_download.
  rewrite idle_round_trip by assumption. reflexivity.
Qed.

(** X13, witness: the sample window in a world where the video is private. *)
Lemma download_always_announces_success_witness :
  exists path st2,
    baixar_video env_private (sample_strip (url_entry typed)) (Some (destino_var typed))
                 (asked typed) (apenas_audio_var typed) (Some log_widget)
                 (deliver (Some log_widget) "Iniciando download..." at_home)
    = (Return path, st2) /\
    steps env_private sample_strip [press_download; work; work] typed at_home
    = (Return (show sucesso typed), deliver (Some log_widget) "Download concluído!" st2).
Proof.
  apply (download_always_announces_success env_private sample_strip typed at_home).
  - repeat split.
  - vm_compute. discriminate.
  - vm_compute. discriminate.
  - vm_compute. set_solver.
Defined.

(** A download that failed is announced as a success all the same. *)
Example failed_download_is_announced :
  let '(w, st) := steps env_private sample_strip [press_download; work; work] typed at_home in
  w = Return (show sucesso typed) /\
  reports (trace st)
  = ["Iniciando download..."; "Conectando ao YouTube...";
     "Erro: Este vídeo não está disponível ou é privado."; "Download concluído!"].
Proof. vm_compute. split; reflexivity. Qed.

(** *** What every run of the window keeps *)

Lemma init_sound cwd st : sound st (init cwd).
Proof.
  split; [|split].
  - left. repeat split.
  - constructor.
  - reflexivity.
Qed.

Lemma asked_not_melhor w : asked w <> Some melhor.
Proof.
  unfold asked. destruct (String.eqb (resolucao_var w) melhor) eqn:E; simpl; [discriminate|].
  destruct (apenas_audio_var w); simpl; [discriminate|].
  intros H. inversion H as [H']. apply String.eqb_neq in E. contradiction.
Qed.

Lemma asked_audio w : apenas_audio_var w = true -> asked w = None.
Proof. unfold asked. intros ->. now rewrite andb_false_r. Qed.

Lemma sound_show st d w : sound st w -> sound st (show d w).
Proof. destruct w. exact id. Qed.

Lemma verificar_video_sound strip w st :
  sound st w -> idle w ->
  exists w' st', verificar_video strip w st = (Return w', st') /\ sound st' w'.
Proof.
  intros Hs (Ht & Hv & Hd & Hb).
  destruct (String.eqb (strip (url_entry w)) EmptyString) eqn:Hu.
  - apply String.eqb_eq in Hu. rewrite verificar_video_blank by assumption.
    eexists _, _. split; [reflexivity|]. now apply sound_show.
  - apply String.eqb_neq in Hu. rewrite verificar_video_run by assumption.
    eexists _, _. split; [reflexivity|].
    destruct Hs as (_ & _ & Hc). destruct w; simpl in *; subst.
    split; [|split].
    + right. repeat split. now eexists.
    + repeat constructor. exact Hu.
    + exact Hc.
Qed.

Lemma iniciar_download_sound strip w st :
  sound st w -> idle w ->
  exists w' st', iniciar_download strip w st = (Return w', st') /\ sound st' w'.
Proof.
  intros Hs (Ht & Hv & Hd & Hb).
  destruct (decide (strip (url_entry w) = EmptyString)) as [Hu|Hu];
    [|destruct (decide (destino_var w = EmptyString)) as [Hp|Hp];
      [|destruct (decide (destino_var w ∈ dirs st)) as [Hi|Hi]]].
  1,2,4: edestruct (iniciar_download_refused strip w st) as (d & ->);
    [tauto | eexists _, _; split; [reflexivity | now apply sound_show]].
  rewrite iniciar_download_run by assumption.
  eexists _, _. split; [reflexivity|].
  destruct Hs as (_ & _ & Hc).
  pose proof (asked_not_melhor w) as Hm. pose proof (asked_audio w) as Ha.
  destruct w; simpl in *; subst.
  split; [|split].
  - right. repeat split. now eexists.
  - repeat constructor; simpl; assumption.
  - exact Hc.
Qed.

Lemma run_task_sound env t w st :
  busy (set_tasks [t] w) ->
  combo_follows_box w ->
  exists w' st', run_task env t (set_tasks [] w) st = (Return w', st') /\ sound st' w'.
Proof.
  intros (_ & Hv & Hd & Hb) Hc. destruct t as [url|url pasta res audio|labels|]; simpl.
  - unfold _verificar_thread.
    destruct (obter_resolucoes_returns env url (Some log_widget) st quiet_log)
      as (labels & st2 & Hrun).
    erewrite bind_return by exact Hrun.
    eexists _, _. split; [reflexivity|].
    destruct w; simpl in *; subst. split; [|split]; [|repeat constructor|exact Hc].
    right. repeat split. now eexists.
  - unfold _download_thread.
    destruct (baixar_video_returns env url (Some pasta) res audio (Some log_widget) st quiet_log)
      as (path & st2 & Hrun).
    erewrite bind_return by exact Hrun.
    eexists _, _. split; [reflexivity|].
    destruct w; simpl in *; subst. split; [|split]; [|repeat constructor|exact Hc].
    right. repeat split. now eexists.
  - unfold _atualizar_apos_verificacao.
    destruct labels as [|l ls].
    + eexists _, _. split; [reflexivity|].
      destruct w; simpl in *. split; [|split]; [|constructor|exact Hc].
      left. repeat split.
    + rewrite bind_run, add_log_run.
      eexists _, _. split; [reflexivity|].
      destruct w; simpl in *. split; [|split]; [|constructor|exact Hc].
      left. repeat split.
  - unfold _finalizar_download. rewrite bind_run, add_log_run.
    eexists _, _. split; [reflexivity|].
    destruct w; simpl in *. split; [|split]; [|constructor|exact Hc].
    left. repeat split.
Qed.

Lemma step_sound env strip i w st :
  sound st w ->
  exists w' st', step env strip i w st = (Return w', st') /\ sound st' w'.
Proof.
  intros Hs. pose proof Hs as (Hphase & Htasks & Hc).
  destruct i; simpl.
  - destruct Hphase as [Hidle|Hbusy].
    + pose proof Hidle as (_ & -> & _). now apply verificar_video_sound.
    + pose proof Hbusy as (_ & -> & _). now eexists _, _.
  - destruct Hphase as [Hidle|Hbusy].
    + pose proof Hidle as (_ & _ & -> & _). now apply iniciar_download_sound.
    + pose proof Hbusy as (_ & _ & -> & _). now eexists _, _.
  - eexists _, _. split; [reflexivity|]. unfold browse_folder.
    destruct (String.eqb answer EmptyString); [assumption|]. destruct w; exact Hs.
  - eexists _, _. split; [reflexivity|].
    destruct w as [u vb [|] rv cv cs dv db pb dl ts];
      (split; [exact Hphase | split; [exact Htasks | reflexivity]]).
  - eexists _, _. split; [reflexivity|]. destruct w; exact Hs.
  - eexists _, _. split; [reflexivity|]. destruct w; exact Hs.
  - destruct (resolucao_combo_state w); eexists _, _; (split; [reflexivity|]);
      try assumption; destruct w; exact Hs.
  - destruct Hphase as [Hidle|Hbusy].
    + pose proof Hidle as (-> & _). now eexists _, _.
    + pose proof Hbusy as ((t & Ht) & Hv & Hd & Hb). rewrite Ht.
      apply run_task_sound; [|exact Hc].
      destruct w; simpl in *. repeat split; try assumption. now eexists.
Qed.

Lemma steps_sound env strip inputs : forall w st,
  sound st w ->
  exists w' st', steps env strip inputs w st = (Return w', st') /\ sound st' w'.
Proof.
  induction inputs as [|i rest IH]; intros w st Hs.
  - now eexists _, _.
  - destruct (step_sound env strip i w st Hs) as (w1 & st1 & Hrun & Hs1).
    erewrite steps_cons by exact Hrun. now apply IH.
Qed.

(** X14.  Whatever the user does with the window, in whatever order, and
    whatever the collaborators answer, no handler and no thread raises, and
    the window is in one of two conditions: idle, with both buttons enabled,
    the bar stopped and nothing handed over; or busy, with both buttons
    disabled, the bar running and exactly one piece of work under way.  So a
    second verification or download cannot be started while one runs. *)
Theorem window_is_idle_or_busy env strip cwd inputs st :
  exists w' st',
    steps env strip inputs (init cwd) st = (Return w', st') /\ (idle w' \/ busy w').
Proof.
  destruct (steps_sound env strip inputs (init cwd) st (init_sound cwd st))
    as (w' & st' & Hrun & Hphase & _).
  now exists w', st'.
Qed.

(** X15.  Whatever the user does with the window, a thread is only ever
    started with arguments that passed the checks: a verification with a URL
    that is not blank; a download with a URL that is not blank, a destination
    that is not empty and is a folder, never the label "Melhor disponível" as
    a resolution, and no resolution at all with the audio box ticked. *)
Theorem threads_get_checked_arguments env strip cwd inputs st w' st' :
  steps env strip inputs (init cwd) st = (Return w', st') ->
  Forall (checked st') (tasks w').
Proof.
  intros Hrun.
  destruct (steps_sound env strip inputs (init cwd) st (init_sound cwd st))
    as (w1 & st1 & Hrun1 & _ & Htasks & _).
  rewrite Hrun in Hrun1. now inversion Hrun1; subst.
Qed.

(** X15, witness: a download under way. *)
Lemma threads_get_checked_arguments_witness :
  Forall (checked (deliver (Some log_widget) "Iniciando download..." at_home))
         (tasks (hand_over (thread_download "https://youtu.be/abc" "/home/user" None false)
                           (set_busy tk_disabled true
                              (set_url " https://youtu.be/abc " (init "/home/user"))))).
Proof.
  apply (threads_get_checked_arguments Sample.env sample_strip "/home/user"
           [type_url " https://youtu.be/abc "; press_download] at_home).
  vm_compute. reflexivity.
Defined.

(** X16.  Whatever the user does with the window, the resolution selector
    is disabled exactly when the audio box is ticked, so a resolution can
    only be picked for a video download. *)
Theorem combo_follows_audio_box env strip cwd inputs st w' st' :
  steps env strip inputs (init cwd) st = (Return w', st') ->
  resolucao_combo_state w' = if apenas_audio_var w' then tk_disabled else tk_readonly.
Proof.
  intros Hrun.
  destruct (steps_sound env strip inputs (init cwd) st (init_sound cwd st))
    as (w1 & st1 & Hrun1 & _ & _ & Hc).
  rewrite Hrun in Hrun1. now inversion Hrun1; subst.
Qed.

(** X16, witness: the box ticked, then a label picked in vain. *)
Lemma combo_follows_audio_box_witness :
  resolucao_combo_state (toggle_audio_mode (set_audio true (init "/home/user")))
  = if apenas_audio_var (toggle_audio_mode (set_audio true (init "/home/user")))
    then tk_disabled else tk_readonly.
Proof.
  apply (combo_follows_audio_box Sample.env sample_strip "/home/user"
           [tick_audio; pick_resolucao "720p"] at_home _ at_home).
  vm_compute. reflexivity.
Defined.
